(** * A shallow embedding of [server.js]

    The server exposes two routes, [POST /info] and [POST /download].  Both
    drive the external extraction tool through [execYtDlp]; [/download]
    additionally manages temporary files, embeds ID3 tags on the audio
    branch and streams the result back, with three listeners (stream
    ['error'], stream ['end'], response ['close']) that each run [cleanup].

    Modelling conventions.
    - A JavaScript string is the list of its UTF-16 code units.
    - A field of a JSON object is [option] of a string: [None] is a field
      that is absent ([undefined]); fields that are present are strings.
    - The collaborators that are not part of the program (the spawned tool,
      [JSON.parse], [uuidv4], [axios], [NodeID3.write], [path.join], the
      outcome of [fs.unlink]) are the fields of an environment record [Env].
    - The file system is the finite set of paths that exist.
    - Handlers thread a [State]; everything they do to the outside is
      appended, in order, to its [trace].
    - The response object follows Express on Node: [res.status] assigns the
      status code, the status line is written with the first write, and
      [res.json] and [res.setHeader] throw once it has been written.
    - The body of a handler up to [stream.pipe(res)] runs as one sequence
      (nothing listens for events before that).  After it, every listener
      runs in two turns: the part up to the first [await] when its event
      fires, the rest when it is resumed; events and resumptions interleave
      freely. *)

From Stdlib Require Import ZArith NArith List Ascii String Bool Lia.
From stdpp Require Import base decidable countable gmap sets list.
Import ListNotations.

Local Open Scope Z_scope.

(** ** JavaScript strings *)

Abbreviation jsstring := (list N).

(** An ASCII literal of the source as a sequence of code units. *)
Definition js (s : string) : jsstring :=
  map N_of_ascii (list_ascii_of_string s).
Arguments js s%_string.

(** A possibly absent string-valued property. *)
Abbreviation field := (option (list N)).

(** [!v] is [false] exactly when [v] is a non-empty string; [truthy_str]
    returns that string. *)
Definition truthy_str (v : field) : option jsstring :=
  match v with
  | Some (c :: s) => Some (c :: s)
  | _ => None
  end.

Definition truthy (v : field) : bool :=
  match truthy_str v with Some _ => true | None => false end.

(** [a || b] where [b] is a string; a chain [a || b || c] picks the same
    operand however it is nested. *)
Definition js_or (a : field) (b : jsstring) : jsstring :=
  match truthy_str a with Some s => s | None => b end.

(** [/[^a-zA-Z0-9]/] tested on one code unit (no [i] or [u] flag). *)
Definition is_alnum (c : N) : bool :=
  ((97 <=? c)%N && (c <=? 122)%N)
  || ((65 <=? c)%N && (c <=? 90)%N)
  || ((48 <=? c)%N && (c <=? 57)%N).

Definition underscore : N := 95%N.

(** [title.replace(/[^a-zA-Z0-9]/g, '_')] *)
Definition replace_non_alnum (title : jsstring) : jsstring :=
  map (fun c => if is_alnum c then c else underscore) title.

(** ** Errors *)

Inductive ErrorKind := PlainError | TypeError | ReferenceError | SyntaxError.

Record JsError := { kind : ErrorKind; message : jsstring }.

Inductive Outcome (A : Type) :=
| Ok (a : A)
| Throw (e : JsError).
Arguments Ok {A} a.
Arguments Throw {A} e.

(** ** Data of the two routes *)

(** [req.body] *)
Record Body := { req_url : field; req_format : field; req_artist : field }.

(** The value [JSON.parse] returns for the tool's metadata dump, seen through
    the four properties the program reads. *)
Record Info := {
  info_title : field;
  info_thumbnail : field;
  info_uploader : field;
  info_artist : field
}.

(** The object handed to [NodeID3.write]. *)
Record Tags := { tag_title : jsstring; tag_artist : jsstring; tag_image : jsstring }.

Inductive Level := LInfo | LWarn | LError.

Inductive Payload :=
| Message (m : jsstring)                        (* { message } *)
| Metadata (title thumbnail : field) (artist : jsstring) (* { title, thumbnail, artist } *)
| Chunk (data : jsstring).                      (* bytes piped from the read stream *)

(** What a run of the child process looks like from [execYtDlp]: the
    ['data'] chunks of both pipes, the code passed to ['close'] ([None] is
    [null], a child killed by a signal) and the files on disk afterwards. *)
Record ProcRun := {
  out_chunks : list jsstring;
  err_chunks : list jsstring;
  exit_code : option Z;
  fs_after : gset jsstring
}.

(** How [downloadThumbnail] can end. *)
Inductive FetchResult :=
| RequestFailed (e : JsError)                 (* [axios(...)] rejected *)
| WriterFailed (e : JsError) (created : bool) (* the write stream emitted ['error'] *)
| WriterFinished.                             (* ['finish'] *)

Record Env := {
  (* [path.join(__dirname, 'temp')] *)
  tempDir : jsstring;
  (* [path.join] on two segments *)
  path_join : jsstring -> jsstring -> jsstring;
  (* a run of [yt-dlp] on an argument vector, from the files that exist *)
  yt_dlp : list jsstring -> gset jsstring -> ProcRun;
  (* [JSON.parse]: a SyntaxError, [null] ([None]) or a value with properties *)
  JSON_parse : jsstring -> Outcome (option Info);
  (* the token of the n-th call of [uuidv4] *)
  uuidv4 : nat -> jsstring;
  (* the GET request of [axios] piped into a write stream on the path *)
  axios_stream : field -> jsstring -> FetchResult;
  (* whether the value [NodeID3.write] returns is truthy *)
  NodeID3_write : Tags -> jsstring -> bool;
  (* whether [fs.unlink] on an existing path succeeds *)
  unlink_ok : jsstring -> bool
}.

(** ** Observable effects *)

Inductive Effect :=
| Spawn (args : list jsstring)
| Fetch (url : field) (dest : jsstring)
| TagWrite (tags : Tags) (file : jsstring) (success : bool)
| Unlink (file : jsstring) (ok : bool)
| Cleanup (files : list jsstring)
| SendJson (code : Z) (body : Payload)
| Pipe (file : jsstring)
| Log (lvl : Level) (msg : jsstring)
| Unhandled (e : JsError).

(** ** The response object *)

Record Response := {
  statusCode : Z;
  headers : list (jsstring * jsstring);
  headersSent : bool;
  finished : bool;
  gone : bool;
  wire : option (Z * list Payload)
}.

Definition fresh_response : Response :=
  {| statusCode := 200; headers := []; headersSent := false;
     finished := false; gone := false; wire := None |}.

Definition ERR_HTTP_HEADERS_SENT : JsError :=
  {| kind := PlainError;
     message := js "Cannot set headers after they are sent to the client" |}.

(** [res.status(code)] only assigns [res.statusCode]. *)
Definition res_status (code : Z) (r : Response) : Response :=
  {| statusCode := code; headers := headers r; headersSent := headersSent r;
     finished := finished r; gone := gone r; wire := wire r |}.

Definition res_setHeader (k v : jsstring) (r : Response) : Outcome Response :=
  if headersSent r then Throw ERR_HTTP_HEADERS_SENT
  else Ok {| statusCode := statusCode r; headers := headers r ++ [(k, v)];
             headersSent := false; finished := finished r; gone := gone r;
             wire := wire r |}.

(** The status line goes out once, with the status code of that moment; a
    connection that is gone receives nothing. *)
Definition flush_head (r : Response) : Response :=
  if headersSent r then r
  else {| statusCode := statusCode r; headers := headers r; headersSent := true;
          finished := finished r; gone := gone r;
          wire := if gone r then wire r else Some (statusCode r, []) |}.

Definition put (p : Payload) (r : Response) : Response :=
  {| statusCode := statusCode r; headers := headers r;
     headersSent := headersSent r; finished := finished r; gone := gone r;
     wire := if gone r then wire r
             else match wire r with
                  | Some (c, ps) => Some (c, ps ++ [p])
                  | None => None
                  end |}.

Definition finish (r : Response) : Response :=
  {| statusCode := statusCode r; headers := headers r;
     headersSent := headersSent r; finished := true; gone := gone r;
     wire := wire r |}.

(** [res.json(body)]: Express sets headers before sending, which throws once
    the head is out. *)
Definition res_json (body : Payload) (r : Response) : Outcome Response :=
  if headersSent r then Throw ERR_HTTP_HEADERS_SENT
  else Ok (finish (put body (flush_head r))).

(** [res.write(chunk)] as issued by [stream.pipe(res)]. *)
Definition res_write (chunk : jsstring) (r : Response) : Response :=
  if finished r then r else put (Chunk chunk) (flush_head r).

(** [res.end()] as issued by [stream.pipe(res)] when the source ends. *)
Definition res_end (r : Response) : Response :=
  if finished r then r else finish (flush_head r).

(** The connection closed. *)
Definition res_closed (r : Response) : Response :=
  {| statusCode := statusCode r; headers := headers r;
     headersSent := headersSent r; finished := finished r; gone := true;
     wire := wire r |}.

(** ** Handler state *)

Record State := {
  fs : gset (list N);        (* the files that exist *)
  res : Response;
  responded : bool;          (* [let responded] of the /download handler *)
  uuid_calls : nat;          (* how many tokens [uuidv4] has handed out *)
  trace : list Effect
}.

Definition fresh (files : gset (list N)) : State :=
  {| fs := files; res := fresh_response; responded := false;
     uuid_calls := 0; trace := [] |}.

Definition with_fs (f : gset (list N)) (s : State) : State :=
  {| fs := f; res := res s; responded := responded s;
     uuid_calls := uuid_calls s; trace := trace s |}.

Definition with_res (r : Response) (s : State) : State :=
  {| fs := fs s; res := r; responded := responded s;
     uuid_calls := uuid_calls s; trace := trace s |}.

Definition with_responded (b : bool) (s : State) : State :=
  {| fs := fs s; res := res s; responded := b;
     uuid_calls := uuid_calls s; trace := trace s |}.

Definition record (e : Effect) (s : State) : State :=
  {| fs := fs s; res := res s; responded := responded s;
     uuid_calls := uuid_calls s; trace := trace s ++ [e] |}.

(** ** A state-and-exception monad for [async] bodies *)

Definition M (A : Type) : Type := State -> Outcome A * State.

Definition ret {A} (a : A) : M A := fun s => (Ok a, s).

Definition throw {A} (e : JsError) : M A := fun s => (Throw e, s).

Definition bind {A B} (m : M A) (k : A -> M B) : M B :=
  fun s =>
    match m s with
    | (Ok a, s') => k a s'
    | (Throw e, s') => (Throw e, s')
    end.

Definition try_catch {A} (m : M A) (handler : JsError -> M A) : M A :=
  fun s =>
    match m s with
    | (Ok a, s') => (Ok a, s')
    | (Throw e, s') => handler e s'
    end.

Notation "'let!' x ':=' m 'in' k" := (bind m (fun x => k))
  (at level 10, x name, m at level 100, k at level 200).
Notation "m ;; k" := (bind m (fun _ => k))
  (at level 100, k at level 200, right associativity).

Definition emit (e : Effect) : M unit := fun s => (Ok tt, record e s).

Definition logger (lvl : Level) (msg : jsstring) : M unit := emit (Log lvl msg).

Definition Error (msg : jsstring) : JsError := {| kind := PlainError; message := msg |}.

(** ** [execYtDlp] *)

(** [stdout += data] once per ['data'] event. *)
Definition accumulate (chunks : list jsstring) : jsstring :=
  fold_left (fun acc data => acc ++ data) chunks [].

Definition execYtDlp (E : Env) (args : list jsstring) : M jsstring :=
  fun s =>
    let proc := yt_dlp E args (fs s) in
    let stdout := accumulate (out_chunks proc) in
    let stderr := accumulate (err_chunks proc) in
    let s' := with_fs (fs_after proc) (record (Spawn args) s) in
    match exit_code proc with
    | Some 0 => (Ok stdout, s')
    | _ => (Throw (Error (js_or (Some stderr) (js "yt-dlp failed"))), s')
    end.

(** ** [downloadThumbnail] *)

Definition downloadThumbnail (E : Env) (url : field) (filePath : jsstring) : M unit :=
  fun s =>
    let s' := record (Fetch url filePath) s in
    match axios_stream E url filePath with
    | RequestFailed e => (Throw e, s')
    | WriterFailed e created =>
        (Throw e, if created then with_fs (fs s' ∪ {[filePath]}) s' else s')
    | WriterFinished => (Ok tt, with_fs (fs s' ∪ {[filePath]}) s')
    end.

(** ** [cleanup] *)

(** One iteration of the [for] loop: [fs.access], then [fs.unlink]; a failed
    [unlink] is caught and logged. *)
Definition cleanup_file (E : Env) (s : State) (file : jsstring) : State :=
  if decide (file ∈ fs s) then
    if unlink_ok E file then
      record (Log LInfo (js "Deleted file: " ++ file))
        (with_fs (fs s ∖ {[file]}) (record (Unlink file true) s))
    else
      record (Log LError (js "Error deleting file " ++ file ++ js ":"))
        (record (Unlink file false) s)
  else s.

Definition cleanup_files (E : Env) (files : list jsstring) (s : State) : State :=
  fold_left (cleanup_file E) files s.

Definition cleanup (E : Env) (files : list jsstring) : M unit :=
  fun s => (Ok tt, cleanup_files E files (record (Cleanup files) s)).

(** ** Responding *)

(** [res.status(code).json(body)] *)
Definition status_json (code : Z) (body : Payload) : M unit :=
  fun s =>
    let r := res_status code (res s) in
    let s' := record (SendJson code body) (with_res r s) in
    match res_json body r with
    | Ok r' => (Ok tt, with_res r' s')
    | Throw e => (Throw e, s')
    end.

(** [res.json(body)] with the status code left as it is. *)
Definition json (body : Payload) : M unit :=
  fun s => status_json (statusCode (res s)) body s.

Definition setHeader (k v : jsstring) : M unit :=
  fun s =>
    match res_setHeader k v (res s) with
    | Ok r' => (Ok tt, with_res r' s)
    | Throw e => (Throw e, s)
    end.

(** [sendError] of the /download handler. *)
Definition sendError (message : jsstring) : M unit :=
  fun s =>
    if responded s then (Ok tt, s)
    else status_json 500 (Message message) (with_responded true s).

(** ** Message literals of the source (code units of the Khmer text) *)

(* 'URL មិនត្រូវបានផ្តល់!' *)
Definition msg_url_missing : jsstring :=
  [85; 82; 76; 32; 6040; 6071; 6035; 6031; 6098; 6042; 6076; 6044; 6036; 6070;
   6035; 6037; 6098; 6031; 6043; 6091; 33]%N.

(* 'មិនអាចទាញ metadata បាន!' *)
Definition msg_metadata_missing : jsstring :=
  [6040; 6071; 6035; 6050; 6070; 6021; 6033; 6070; 6025; 32; 109; 101; 116; 97;
   100; 97; 116; 97; 32; 6036; 6070; 6035; 33]%N.

(* 'មិនអាចទាញព័ត៌មានបាន: ' *)
Definition msg_info_failed : jsstring :=
  [6040; 6071; 6035; 6050; 6070; 6021; 6033; 6070; 6025; 6038; 6096; 6031; 6092;
   6040; 6070; 6035; 6036; 6070; 6035; 58; 32]%N.

(* 'URL ឬ format មិនត្រូវបានផ្តល់!' *)
Definition msg_url_or_format_missing : jsstring :=
  [85; 82; 76; 32; 6060; 32; 102; 111; 114; 109; 97; 116; 32; 6040; 6071; 6035;
   6031; 6098; 6042; 6076; 6044; 6036; 6070; 6035; 6037; 6098; 6031; 6043; 6091;
   33]%N.

(* 'កំហុសក្នុងការទាញយក MP3!' *)
Definition msg_mp3_stream_error : jsstring :=
  [6016; 6086; 6048; 6075; 6047; 6016; 6098; 6035; 6075; 6020; 6016; 6070; 6042;
   6033; 6070; 6025; 6041; 6016; 32; 77; 80; 51; 33]%N.

(* 'កំហុសក្នុងការទាញយកវីដេអូ!' *)
Definition msg_video_stream_error : jsstring :=
  [6016; 6086; 6048; 6075; 6047; 6016; 6098; 6035; 6075; 6020; 6016; 6070; 6042;
   6033; 6070; 6025; 6041; 6016; 6044; 6072; 6026; 6081; 6050; 6076; 33]%N.

(* 'មិនអាចទាញយកបាន: ' *)
Definition msg_download_failed : jsstring :=
  [6040; 6071; 6035; 6050; 6070; 6021; 6033; 6070; 6025; 6041; 6016; 6036; 6070;
   6035; 58; 32]%N.

Definition dquote : jsstring := [34%N].

(** ** Small pieces shared by the two routes *)

Definition lift {A} (o : Outcome A) : M A := fun s => (o, s).

Definition null_property (name : jsstring) : JsError :=
  {| kind := TypeError;
     message := js "Cannot read properties of null (reading '" ++ name ++ js "')" |}.

Definition undefined_property (name : jsstring) : JsError :=
  {| kind := TypeError;
     message := js "Cannot read properties of undefined (reading '" ++ name ++ js "')" |}.

(** How a handler invocation ends. *)
Inductive Branch := Audio | Video.

Inductive Phase :=
| Returned                   (* the handler ran to its end, nothing is registered *)
| Rejected (e : JsError)     (* the [async] handler threw: its promise rejects *)
| Streaming (b : Branch) (filePath thumbnailPath : jsstring).

Definition settle (m : M Phase) (s : State) : Phase * State :=
  match m s with
  | (Ok ph, s') => (ph, s')
  | (Throw e, s') => (Rejected e, s')
  end.

(** ** [POST /info] *)

Definition info_try (E : Env) (url : jsstring) : M Phase :=
  let! stdout := execYtDlp E [js "--dump-json"; url] in
  let! info := lift (JSON_parse E stdout) in
  match info with
  | None => throw (null_property (js "title"))
  | Some info =>
      if negb (truthy (info_title info)) || negb (truthy (info_thumbnail info))
      then throw (Error msg_metadata_missing)
      else
        json (Metadata (info_title info) (info_thumbnail info)
                (js_or (info_uploader info)
                   (js_or (info_artist info) (js "Unknown Artist")))) ;;
        ret Returned
  end.

Definition info_catch (error : JsError) : M Phase :=
  logger LError (js "Error fetching info:") ;;
  status_json 500 (Message (msg_info_failed ++ message error)) ;;
  ret Returned.

Definition info (E : Env) (body : Body) : State -> Phase * State :=
  match truthy_str (req_url body) with
  | None => settle (status_json 400 (Message msg_url_missing) ;; ret Returned)
  | Some url => settle (try_catch (info_try E url) info_catch)
  end.

(** ** [POST /download] *)

(** Lexical scope: the string-valued names an identifier can resolve to.
    Names bound to functions and objects ([req], [res], [sendError],
    [cleanup], [error], the module's [require]s) are left out; none of them
    is spelled like a name looked up below. *)
Definition Scope : Type := list (string * list N).

Fixpoint resolve (x : string) (sc : Scope) : option jsstring :=
  match sc with
  | [] => None
  | (y, v) :: sc' => if String.eqb x y then Some v else resolve x sc'
  end.

Definition identifier (x : string) (sc : Scope) : M jsstring :=
  match resolve x sc with
  | Some v => ret v
  | None => throw {| kind := ReferenceError; message := js x ++ js " is not defined" |}
  end.

(** Bindings of the module and of the handler body, visible in the whole
    handler. *)
Definition handler_scope (E : Env) (url format : jsstring) : Scope :=
  [("url"%string, url); ("format"%string, format); ("tempDir"%string, tempDir E)].

(** The [const]s declared inside the [try] block; they extend the scope of
    that block only. *)
Definition try_scope (title fileName filePath thumbnailPath : jsstring)
    (outer : Scope) : Scope :=
  [("title"%string, title); ("fileName"%string, fileName);
   ("filePath"%string, filePath); ("thumbnailPath"%string, thumbnailPath)] ++ outer.

Definition uuid (E : Env) : M jsstring :=
  fun s => (Ok (uuidv4 E (uuid_calls s)),
            {| fs := fs s; res := res s; responded := responded s;
               uuid_calls := S (uuid_calls s); trace := trace s |}).

(** [await fs.access(filePath)] *)
Definition access (file : jsstring) : M unit :=
  fun s =>
    if decide (file ∈ fs s) then (Ok tt, s)
    else (Throw (Error (js "ENOENT: no such file or directory, access '"
                          ++ file ++ js "'")), s).

Definition write_tags (E : Env) (tags : Tags) (file : jsstring) : M bool :=
  fun s =>
    let success := NodeID3_write E tags file in
    (Ok success, record (TagWrite tags file success) s).

Definition attachment (title ext : jsstring) : jsstring :=
  js "attachment; filename=" ++ dquote ++ title ++ js "." ++ ext ++ dquote.

Definition audio_branch (E : Env) (sc : Scope) (artist : field) (info : Info)
    (raw_title : jsstring) : M Phase :=
  let! url := identifier "url" sc in
  let! title := identifier "title" sc in
  let! filePath := identifier "filePath" sc in
  let! thumbnailPath := identifier "thumbnailPath" sc in
  execYtDlp E [js "-x"; js "--audio-format"; js "mp3"; js "-o"; filePath; url] ;;
  access filePath ;;
  downloadThumbnail E (info_thumbnail info) thumbnailPath ;;
  let tags :=
    {| tag_title := raw_title;
       tag_artist :=
         js_or artist
           (js_or (info_uploader info)
              (js_or (info_artist info) (js "Unknown Artist")));
       tag_image := thumbnailPath |} in
  let! success := write_tags E tags filePath in
  (if negb success then logger LWarn (js "Failed to write ID3 tags") else ret tt) ;;
  setHeader (js "Content-Disposition") (attachment title (js "mp3")) ;;
  setHeader (js "Content-Type") (js "audio/mpeg") ;;
  emit (Pipe filePath) ;;
  ret (Streaming Audio filePath thumbnailPath).

Definition video_branch (E : Env) (sc : Scope) : M Phase :=
  let! url := identifier "url" sc in
  let! title := identifier "title" sc in
  let! filePath := identifier "filePath" sc in
  let! thumbnailPath := identifier "thumbnailPath" sc in
  execYtDlp E [js "-f"; js "best"; js "-o"; filePath; url] ;;
  access filePath ;;
  setHeader (js "Content-Disposition") (attachment title (js "mp4")) ;;
  setHeader (js "Content-Type") (js "video/mp4") ;;
  emit (Pipe filePath) ;;
  ret (Streaming Video filePath thumbnailPath).

Definition download_try (E : Env) (sc : Scope) (artist : field) : M Phase :=
  let! url := identifier "url" sc in
  let! format := identifier "format" sc in
  let! tempDir := identifier "tempDir" sc in
  let! stdout := execYtDlp E [js "--dump-json"; url] in
  let! info := lift (JSON_parse E stdout) in
  match info with
  | None => throw (null_property (js "title"))
  | Some info =>
      match info_title info with
      | None => throw (undefined_property (js "replace"))
      | Some raw_title =>
          let title := replace_non_alnum raw_title in
          let! token := uuid E in
          let fileName := title ++ js "_" ++ token ++ js "." ++ format in
          let filePath := path_join E tempDir fileName in
          let! token' := uuid E in
          let thumbnailPath :=
            path_join E tempDir (title ++ js "_" ++ token' ++ js ".jpg") in
          let sc' := try_scope title fileName filePath thumbnailPath sc in
          if decide (format = js "mp3")
          then audio_branch E sc' artist info raw_title
          else video_branch E sc'
      end
  end.

(** The [catch] clause sees the handler's scope, not the [try] block's. *)
Definition download_catch (E : Env) (sc : Scope) (error : JsError) : M Phase :=
  logger LError (js "Error downloading file:") ;;
  let! filePath := identifier "filePath" sc in
  let! thumbnailPath := identifier "thumbnailPath" sc in
  cleanup E [filePath; thumbnailPath] ;;
  sendError (msg_download_failed ++ message error) ;;
  ret Returned.

Definition download (E : Env) (body : Body) : State -> Phase * State :=
  match truthy_str (req_url body), truthy_str (req_format body) with
  | Some url, Some format =>
      let sc := handler_scope E url format in
      settle (try_catch (download_try E sc (req_artist body)) (download_catch E sc))
  | _, _ =>
      settle (status_json 400 (Message msg_url_or_format_missing) ;; ret Returned)
  end.

(** ** The streaming phase

    Once [stream.pipe(res)] has run, the request lives on in its listeners.
    Each listener is an [async] function: it runs up to the first [await]
    inside [cleanup] when its event fires (the call of [cleanup] is made
    then), and the rest of it, the file deletions and whatever follows
    [await cleanup(...)], runs at some later turn of the event loop.  A
    listener that is suspended this way is a [Task]; [Resume i] lets the
    [i]-th suspended listener run to its end. *)

Inductive Cont :=
| ThenSendError (message : jsstring)   (* stream ['error']: [sendError(...)] *)
| ThenMarkResponded                    (* stream ['end']: [if (!responded) responded = true] *)
| ThenNothing.                         (* response ['close'] *)

Record Task := { task_files : list jsstring; task_then : Cont }.

Record Live := { here : State; suspended : list Task }.

Inductive Event :=
| StreamData (chunk : jsstring)   (* the read stream produced a chunk; [pipe] writes it *)
| StreamError (msg : jsstring)    (* stream ['error'] *)
| StreamEnd                       (* stream ['end'] *)
| ResClose                        (* response ['close'] *)
| Resume (i : nat).               (* a suspended listener continues *)

(** The array each listener passes to [cleanup]. *)
Definition temp_files (b : Branch) (filePath thumbnailPath : jsstring) : list jsstring :=
  match b with
  | Audio => [filePath; thumbnailPath]
  | Video => [filePath]
  end.

Definition stream_error_message (b : Branch) : jsstring :=
  match b with
  | Audio => msg_mp3_stream_error
  | Video => msg_video_stream_error
  end.

Definition completed_message (b : Branch) : jsstring :=
  match b with
  | Audio => js "MP3 streaming completed"
  | Video => js "Video streaming completed"
  end.

Definition on_state (f : State -> State) (l : Live) : Live :=
  {| here := f (here l); suspended := suspended l |}.

Definition on_res (f : Response -> Response) : Live -> Live :=
  on_state (fun s => with_res (f (res s)) s).

(** [await cleanup(files)] inside a listener: the call is made, the listener
    is parked with what it does afterwards. *)
Definition await_cleanup (files : list jsstring) (k : Cont) (l : Live) : Live :=
  {| here := record (Cleanup files) (here l);
     suspended := suspended l ++ [{| task_files := files; task_then := k |}] |}.

(** A listener's promise is nobody's: a throw is an unhandled rejection. *)
Definition detached (m : M unit) (s : State) : State :=
  match m s with
  | (Ok _, s') => s'
  | (Throw e, s') => record (Unhandled e) s'
  end.

Definition continue (k : Cont) : M unit :=
  match k with
  | ThenSendError message => sendError message
  | ThenMarkResponded =>
      fun s => (Ok tt, if negb (responded s) then with_responded true s else s)
  | ThenNothing => ret tt
  end.

Definition step (E : Env) (b : Branch) (filePath thumbnailPath : jsstring)
    (l : Live) (ev : Event) : Live :=
  let files := temp_files b filePath thumbnailPath in
  match ev with
  | StreamData chunk => on_res (res_write chunk) l
  | StreamError msg =>
      await_cleanup files (ThenSendError (stream_error_message b))
        (on_state (record (Log LError (js "Stream error:"))) l)
  | StreamEnd =>
      on_res res_end
        (await_cleanup files ThenMarkResponded
           (on_state (record (Log LInfo (completed_message b))) l))
  | ResClose =>
      await_cleanup files ThenNothing
        (on_state (record (Log LInfo (js "Client disconnected")))
           (on_res res_closed l))
  | Resume i =>
      match suspended l !! i with
      | None => l
      | Some t =>
          {| here := detached (continue (task_then t))
                       (cleanup_files E (task_files t) (here l));
             suspended := delete i (suspended l) |}
      end
  end.

Definition run (E : Env) (b : Branch) (filePath thumbnailPath : jsstring)
    (l : Live) (evs : list Event) : Live :=
  fold_left (step E b filePath thumbnailPath) evs l.

(** A whole /download request: the handler on a fresh response, then the
    events that reach its listeners. *)
Definition serve (E : Env) (body : Body) (files : gset (list N))
    (evs : list Event) : Live :=
  match download E body (fresh files) with
  | (Streaming b filePath thumbnailPath, s) =>
      run E b filePath thumbnailPath {| here := s; suspended := [] |} evs
  | (Rejected e, s) => {| here := record (Unhandled e) s; suspended := [] |}
  | (Returned, s) => {| here := s; suspended := [] |}
  end.

(** ** Reading a trace *)

Definition is_cleanup (e : Effect) : bool :=
  match e with Cleanup _ => true | _ => false end.

Definition is_send_json (e : Effect) : bool :=
  match e with SendJson _ _ => true | _ => false end.

Definition cleanup_calls (t : list Effect) : nat := length (List.filter is_cleanup t).

Definition json_calls (t : list Effect) : nat := length (List.filter is_send_json t).

Definition wire_status (r : Response) : option Z :=
  match wire r with Some (c, _) => Some c | None => None end.

Definition is_terminal (ev : Event) : bool :=
  match ev with
  | StreamError _ | StreamEnd | ResClose => true
  | _ => false
  end.

(** ** A concrete environment for examples *)

Module Sample.

Definition song : Info :=
  {| info_title := Some (js "My Song!");
     info_thumbnail := Some (js "http://img/t.jpg");
     info_uploader := Some (js "Uploader");
     info_artist := None |}.

(** The path that follows [-o] in an argument vector. *)
Fixpoint output_path (args : list jsstring) : option jsstring :=
  match args with
  | flag :: rest =>
      if decide (flag = js "-o") then head rest else output_path rest
  | [] => None
  end.

(** A tool that dumps [{}] for [--dump-json] and otherwise writes its
    output file and closes with [code], printing [err]. *)
Definition tool (code : option Z) (err : list jsstring)
    (args : list jsstring) (files : gset (list N)) : ProcRun :=
  match output_path args with
  | None => {| out_chunks := [js "{"; js "}"]; err_chunks := [];
               exit_code := Some 0; fs_after := files |}
  | Some p => {| out_chunks := []; err_chunks := err; exit_code := code;
                 fs_after := files ∪ {[p]} |}
  end.

Definition env (meta : Info) (code : option Z) (err : list jsstring)
    (tagged : bool) : Env :=
  {| tempDir := js "/app/temp";
     path_join := fun a b => a ++ js "/" ++ b;
     yt_dlp := tool code err;
     JSON_parse := fun _ => Ok (Some meta);
     uuidv4 := fun n => match n with O => js "u0" | _ => js "u1" end;
     axios_stream := fun _ _ => WriterFinished;
     NodeID3_write := fun _ _ => tagged;
     unlink_ok := fun _ => true |}.

Definition request (format : jsstring) : Body :=
  {| req_url := Some (js "https://v/1"); req_format := Some format;
     req_artist := None |}.

End Sample.

(** ** What a /download handler invocation can come to *)

Definition audio_args (filePath url : jsstring) : list jsstring :=
  [js "-x"; js "--audio-format"; js "mp3"; js "-o"; filePath; url].

Definition video_args (filePath url : jsstring) : list jsstring :=
  [js "-f"; js "best"; js "-o"; filePath; url].

(** The argument vector of the extraction run, read off the format. *)
Definition extraction_args (format filePath url : jsstring) : list jsstring :=
  if decide (format = js "mp3") then audio_args filePath url
  else video_args filePath url.

Definition branch_of (format : jsstring) : Branch :=
  if decide (format = js "mp3") then Audio else Video.

(** Metadata resolution went through: the dump closed with code 0, parsed
    to an object and that object has a string [title]. *)
Definition metadata_of (E : Env) (url : jsstring) (files : gset (list N))
    (meta : Info) (raw : jsstring) : Prop :=
  let dump := yt_dlp E [js "--dump-json"; url] files in
  exit_code dump = Some 0 /\
  JSON_parse E (accumulate (out_chunks dump)) = Ok (Some meta) /\
  info_title meta = Some raw.

Definition primary_path (E : Env) (raw format : jsstring) : jsstring :=
  path_join E (tempDir E)
    (replace_non_alnum raw ++ js "_" ++ uuidv4 E 0 ++ js "." ++ format).

Definition thumbnail_path (E : Env) (raw : jsstring) : jsstring :=
  path_join E (tempDir E)
    (replace_non_alnum raw ++ js "_" ++ uuidv4 E 1 ++ js ".jpg").

Definition tags_of (E : Env) (artist : field) (meta : Info) (raw : jsstring) : Tags :=
  {| tag_title := raw;
     tag_artist :=
       js_or artist
         (js_or (info_uploader meta)
            (js_or (info_artist meta) (js "Unknown Artist")));
     tag_image := thumbnail_path E raw |}.

Definition stream_headers (b : Branch) (title : jsstring) : list (jsstring * jsstring) :=
  match b with
  | Audio => [(js "Content-Disposition", attachment title (js "mp3"));
              (js "Content-Type", js "audio/mpeg")]
  | Video => [(js "Content-Disposition", attachment title (js "mp4"));
              (js "Content-Type", js "video/mp4")]
  end.

(** Effects of a run that never got to respond or to clean up. *)
Definition is_attempt (e : Effect) : bool :=
  match e with Spawn _ | Fetch _ _ | Log _ _ => true | _ => false end.

Inductive download_outcome (E : Env) (body : Body) (files : gset (list N))
  : Phase -> State -> Prop :=
| outcome_invalid s :
    truthy_str (req_url body) = None \/ truthy_str (req_format body) = None ->
    fs s = files ->
    trace s = [SendJson 400 (Message msg_url_or_format_missing)] ->
    wire (res s) = Some (400, [Message msg_url_or_format_missing]) ->
    headersSent (res s) = true ->
    download_outcome E body files Returned s
| outcome_rejected url format s :
    truthy_str (req_url body) = Some url ->
    truthy_str (req_format body) = Some format ->
    Forall (fun e => is_attempt e = true) (trace s) ->
    res s = fresh_response ->
    responded s = false ->
    (forall meta raw, metadata_of E url files meta raw ->
       exists rest,
         trace s = Spawn [js "--dump-json"; url]
                   :: Spawn (extraction_args format (primary_path E raw format) url)
                   :: rest) ->
    download_outcome E body files
      (Rejected {| kind := ReferenceError; message := js "filePath is not defined" |}) s
| outcome_streaming url format meta raw s :
    truthy_str (req_url body) = Some url ->
    truthy_str (req_format body) = Some format ->
    metadata_of E url files meta raw ->
    let b := branch_of format in
    let filePath := primary_path E raw format in
    let tags := tags_of E (req_artist body) meta raw in
    exit_code (yt_dlp E (extraction_args format filePath url)
                 (fs_after (yt_dlp E [js "--dump-json"; url] files))) = Some 0 ->
    trace s
    = Spawn [js "--dump-json"; url]
      :: Spawn (extraction_args format filePath url)
      :: match b with
         | Audio =>
             Fetch (info_thumbnail meta) (thumbnail_path E raw)
             :: TagWrite tags filePath (NodeID3_write E tags filePath)
             :: (if NodeID3_write E tags filePath then []
                 else [Log LWarn (js "Failed to write ID3 tags")])
             ++ [Pipe filePath]
         | Video => [Pipe filePath]
         end ->
    res s
    = {| statusCode := 200; headers := stream_headers b (replace_non_alnum raw);
         headersSent := false; finished := false; gone := false; wire := None |} ->
    responded s = false ->
    filePath ∈ fs s ->
    download_outcome E body files (Streaming b filePath (thumbnail_path E raw)) s.


(** ** Reasoning about handler bodies

    [wp m s Q]: running [m] from [s] ends in an outcome and a state that
    satisfy [Q].  The rules below follow the shape of the monad, so a proof
    walks through a handler statement by statement. *)

Definition wp {A} (m : M A) (s : State) (Q : Outcome A -> State -> Prop) : Prop :=
  Q (fst (m s)) (snd (m s)).


(** The artist of the tag set in the words of the specification: the
    override of the request when present, else the uploader, else the
    artist of the metadata, else the sentinel.  A value is present when it
    is a non-empty string. *)
Definition artist_precedence (override uploader artist : field) : jsstring :=
  match override, uploader, artist with
  | Some (c :: s), _, _ => c :: s
  | _, Some (c :: s), _ => c :: s
  | _, _, Some (c :: s) => c :: s
  | _, _, _ => js "Unknown Artist"
  end.

(** The head of a response is out whenever something is on the wire. *)
Definition head_consistent (r : Response) : Prop :=
  headersSent r = false -> wire r = None.

(** The one-shot guard: no [res.json] call was made while [responded] is
    still [false], and never more than one. *)
Definition guard_invariant (s : State) : Prop :=
  (json_calls (trace s) <= 1)%nat /\
  (responded s = false -> json_calls (trace s) = 0%nat).

(** A response that is being streamed with status 200 and has delivered
    the payloads [sent] so far. *)
Definition streaming_200 (r : Response) (sent : list Payload) : Prop :=
  finished r = false /\ gone r = false /\ statusCode r = 200 /\
  ((headersSent r = false /\ wire r = None /\ sent = [])
   \/ (headersSent r = true /\ wire r = Some (200, sent))).

(** What [cleanup] leaves alone, and what it appends. *)
Definition is_deletion (e : Effect) : bool :=
  match e with Unlink _ _ | Log _ _ => true | _ => false end.

(** Every [cleanup] call of the streaming phase is over the request's own
    temp files. *)
Definition cleans_only (files : list jsstring) (e : Effect) : Prop :=
  match e with Cleanup fl => fl = files | _ => True end.

Definition keeps_status (r r' : Response) : Prop :=
  head_consistent r' /\
  forall c, wire_status r = Some c -> wire_status r' = Some c.

Definition filePath_is_not_defined : JsError :=
  {| kind := ReferenceError; message := js "filePath is not defined" |}.

(** Every [res.json] call of a /download request is an error response. *)
Definition is_error_response (e : Effect) : Prop :=
  match e with SendJson code _ => code = 400 \/ code = 500 | _ => True end.

(** ** Further vocabulary for statements *)

Definition is_spawn (e : Effect) : bool :=
  match e with Spawn _ => true | _ => false end.

(** Effects that touch a temp file or hand one out. *)
Definition is_file_effect (e : Effect) : bool :=
  match e with
  | Fetch _ _ | TagWrite _ _ _ | Unlink _ _ | Cleanup _ | Pipe _ => true
  | _ => false
  end.

(** The detail [execYtDlp] puts in its rejection: what the child wrote to
    stderr, or the fixed text when that is nothing. *)
Definition failure_detail (proc : ProcRun) : jsstring :=
  match concat (err_chunks proc) with
  | [] => js "yt-dlp failed"
  | stderr => stderr
  end.

(** Every listener that is parked is parked on the request's own paths. *)
Definition parked_on (paths : list jsstring) (l : Live) : Prop :=
  Forall (fun task => task_files task = paths) (suspended l).

(** The paths of a request that [fs.unlink] is able to remove are gone. *)
Definition removed (E : Env) (paths : list jsstring) (s : State) : Prop :=
  forall p, In p paths -> unlink_ok E p = true -> p ∉ fs s.

(** Some listener has been resumed: more [cleanup] calls were made than
    listeners are still parked. *)
Definition cleanup_invariant (E : Env) (paths : list jsstring) (l : Live) : Prop :=
  parked_on paths l /\
  (length (suspended l) <= cleanup_calls (trace (here l)))%nat /\
  ((length (suspended l) < cleanup_calls (trace (here l)))%nat ->
   removed E paths (here l)).

(** What [res.status(code).json(body)] makes of a response whose head is
    not out yet and whose client is still there. *)
Definition answered (code : Z) (body : Payload) (r : Response) : Response :=
  {| statusCode := code; headers := headers r; headersSent := true;
     finished := true; gone := false; wire := Some (code, [body]) |}.


(** The state an /info request with a url ends in: the tool has run once,
    a failure was logged, one response went out. *)
Definition info_reply (E : Env) (url : jsstring) (files : gset (list N))
    (code : Z) (body : Payload) (failed : bool) : State :=
  {| fs := fs_after (yt_dlp E [js "--dump-json"; url] files);
     res := answered code body fresh_response;
     responded := false;
     uuid_calls := 0;
     trace := Spawn [js "--dump-json"; url]
              :: (if failed then [Log LError (js "Error fetching info:")] else [])
              ++ [SendJson code body] |}.

(** The ways an /info request can go, each with the state it ends in. *)
Inductive info_outcome (E : Env) (body : Body) (files : gset (list N))
  : State -> Prop :=
| info_no_url :
    truthy_str (req_url body) = None ->
    info_outcome E body files
      {| fs := files;
         res := answered 400 (Message msg_url_missing) fresh_response;
         responded := false; uuid_calls := 0;
         trace := [SendJson 400 (Message msg_url_missing)] |}
| info_tool_failed url :
    truthy_str (req_url body) = Some url ->
    exit_code (yt_dlp E [js "--dump-json"; url] files) <> Some 0 ->
    info_outcome E body files
      (info_reply E url files 500
         (Message (msg_info_failed
                   ++ failure_detail (yt_dlp E [js "--dump-json"; url] files)))
         true)
| info_unparsed url e :
    truthy_str (req_url body) = Some url ->
    exit_code (yt_dlp E [js "--dump-json"; url] files) = Some 0 ->
    JSON_parse E (accumulate (out_chunks (yt_dlp E [js "--dump-json"; url] files)))
    = Throw e ->
    info_outcome E body files
      (info_reply E url files 500 (Message (msg_info_failed ++ message e)) true)
| info_null url :
    truthy_str (req_url body) = Some url ->
    exit_code (yt_dlp E [js "--dump-json"; url] files) = Some 0 ->
    JSON_parse E (accumulate (out_chunks (yt_dlp E [js "--dump-json"; url] files)))
    = Ok None ->
    info_outcome E body files
      (info_reply E url files 500
         (Message (msg_info_failed ++ message (null_property (js "title")))) true)
| info_incomplete url meta :
    truthy_str (req_url body) = Some url ->
    exit_code (yt_dlp E [js "--dump-json"; url] files) = Some 0 ->
    JSON_parse E (accumulate (out_chunks (yt_dlp E [js "--dump-json"; url] files)))
    = Ok (Some meta) ->
    truthy (info_title meta) = false \/ truthy (info_thumbnail meta) = false ->
    info_outcome E body files
      (info_reply E url files 500
         (Message (msg_info_failed ++ msg_metadata_missing)) true)
| info_complete url meta :
    truthy_str (req_url body) = Some url ->
    exit_code (yt_dlp E [js "--dump-json"; url] files) = Some 0 ->
    JSON_parse E (accumulate (out_chunks (yt_dlp E [js "--dump-json"; url] files)))
    = Ok (Some meta) ->
    truthy (info_title meta) = true ->
    truthy (info_thumbnail meta) = true ->
    info_outcome E body files
      (info_reply E url files 200
         (Metadata (info_title meta) (info_thumbnail meta)
            (artist_precedence None (info_uploader meta) (info_artist meta)))
         false).

(** A response that is complete and a request whose guard is spent: what
    stays true of a request after its stream ended and the ['end'] listener
    ran. *)
Definition settled (l : Live) : Prop :=
  responded (here l) = true /\
  finished (res (here l)) = true /\
  headersSent (res (here l)) = true.

Definition is_stream_error (ev : Event) : Prop :=
  match ev with StreamError _ => True | _ => False end.

Definition is_unhandled (e : Effect) : Prop :=
  match e with Unhandled _ => True | _ => False end.

Definition is_tagging (e : Effect) : Prop :=
  match e with Fetch _ _ | TagWrite _ _ _ => True | _ => False end.

(** No listener that is parked will call [sendError], no [res.json] call
    was made and no listener has thrown. *)
Definition quiet (l : Live) : Prop :=
  Forall (fun task => match task_then task with
                      | ThenSendError _ => False
                      | _ => True
                      end) (suspended l) /\
  json_calls (trace (here l)) = 0%nat /\
  Forall (fun e => ~ is_unhandled e) (trace (here l)).
(** * Properties *)

(** ** The title sanitiser *)

Lemma is_alnum_underscore : is_alnum underscore = false.
Proof. reflexivity. Qed.

Lemma replace_non_alnum_lookup (title : jsstring) (i : nat) :
  replace_non_alnum title !! i
  = (fun c => if is_alnum c then c else underscore) <$> (title !! i).
Proof. unfold replace_non_alnum. apply list_lookup_fmap. Qed.

Lemma replace_non_alnum_chars (title : jsstring) :
  Forall (fun c => is_alnum c = true \/ c = underscore) (replace_non_alnum title).
Proof.
  unfold replace_non_alnum.
  induction title as [|c title IH]; simpl; constructor; auto.
  destruct (is_alnum c) eqn:Hc; auto.
Qed.

(** C6, as stated, fails: the title 'a b' is sanitised to 'a_b', whose
    middle code unit is an underscore and not an alphanumeric character. *)
Lemma sanitized_title_not_alnum_only :
  replace_non_alnum (js "a b") = js "a_b" /\
  ~ Forall (fun c => is_alnum c = true) (replace_non_alnum (js "a b")).
Proof.
  split; [reflexivity|].
  intros H. apply Forall_cons_1 in H as [_ H].
  apply Forall_cons_1 in H as [H _]. discriminate H.
Qed.

(** C6, amended: for every source title the sanitised name has the length
    of the title and consists of ASCII alphanumerics and underscores only:
    each alphanumeric code unit is kept in place and every other code unit
    is replaced by an underscore (so the name is alphanumeric only exactly
    when the title already was). *)
Theorem sanitized_title_alnum_or_underscore (title : jsstring) :
  Forall (fun c => is_alnum c = true \/ c = underscore) (replace_non_alnum title) /\
  length (replace_non_alnum title) = length title /\
  (forall i : nat,
     replace_non_alnum title !! i
     = (fun c => if is_alnum c then c else underscore) <$> (title !! i)) /\
  (Forall (fun c => is_alnum c = true) (replace_non_alnum title)
   <-> Forall (fun c => is_alnum c = true) title).
Proof.
  split; [apply replace_non_alnum_chars|].
  split; [unfold replace_non_alnum; apply length_map|].
  split; [apply replace_non_alnum_lookup|].
  unfold replace_non_alnum.
  induction title as [|c title IH]; simpl; [tauto|].
  rewrite !Forall_cons, IH.
  destruct (is_alnum c) eqn:Hc; rewrite ?Hc, ?is_alnum_underscore; intuition congruence.
Qed.

Lemma sanitized_title_alnum_or_underscore_witness :
  Forall (fun c => is_alnum c = true) (replace_non_alnum (js "Song1")) /\
  Forall (fun c => is_alnum c = true) (js "Song1").
Proof.
  assert (H : Forall (fun c => is_alnum c = true) (js "Song1"))
    by (repeat constructor).
  split; [|exact H].
  apply (proj2 (proj2 (proj2 (proj2 (sanitized_title_alnum_or_underscore (js "Song1")))))).
  exact H.
Defined.

(** ** The process executor *)

Lemma accumulate_from (chunks : list jsstring) (acc : jsstring) :
  fold_left (fun acc data => acc ++ data) chunks acc = acc ++ concat chunks.
Proof.
  revert acc. induction chunks as [|d chunks IH]; intros acc; simpl.
  - now rewrite app_nil_r.
  - rewrite IH. now rewrite <- app_assoc.
Qed.

Lemma accumulate_concat (chunks : list jsstring) :
  accumulate chunks = concat chunks.
Proof. unfold accumulate. now rewrite accumulate_from. Qed.

(** C8: a call of the executor resolves exactly when the child closes with
    exit code zero, and then with everything the child wrote to stdout; on
    any other code it rejects with an error whose message is everything the
    child wrote to stderr, or 'yt-dlp failed' when that is empty. *)
Theorem execYtDlp_resolves_iff_exit_zero (E : Env) (args : list jsstring) (s : State) :
  let proc := yt_dlp E args (fs s) in
  ((exists out, fst (execYtDlp E args s) = Ok out) <-> exit_code proc = Some 0) /\
  (exit_code proc = Some 0 ->
   fst (execYtDlp E args s) = Ok (concat (out_chunks proc))) /\
  (exit_code proc <> Some 0 ->
   fst (execYtDlp E args s)
   = Throw (Error (match concat (err_chunks proc) with
                   | [] => js "yt-dlp failed"
                   | stderr => stderr
                   end))).
Proof.
  intros proc. unfold execYtDlp. fold proc.
  rewrite !accumulate_concat.
  destruct (exit_code proc) as [[| |]|] eqn:Hcode; simpl.
  - split; [split; eauto|]. split; [reflexivity|congruence].
  - split; [split; [intros [? ?]|]; discriminate|].
    split; [discriminate|]. intros _. unfold js_or. simpl.
    now destruct (concat (err_chunks proc)).
  - split; [split; [intros [? ?]|]; discriminate|].
    split; [discriminate|]. intros _. unfold js_or. simpl.
    now destruct (concat (err_chunks proc)).
  - split; [split; [intros [? ?]|]; discriminate|].
    split; [discriminate|]. intros _. unfold js_or. simpl.
    now destruct (concat (err_chunks proc)).
Qed.

Lemma execYtDlp_resolves_iff_exit_zero_witness :
  let E := Sample.env Sample.song (Some 1) [js "ERROR: "; js "unavailable"] true in
  let extract := [js "-f"; js "best"; js "-o"; js "/app/temp/a.mp4"; js "https://v/1"] in
  let dump := [js "--dump-json"; js "https://v/1"] in
  fst (execYtDlp E extract (fresh ∅)) = Throw (Error (js "ERROR: unavailable")) /\
  fst (execYtDlp E dump (fresh ∅)) = Ok (js "{}").
Proof.
  intros E extract dump. split.
  - apply (proj2 (proj2 (execYtDlp_resolves_iff_exit_zero E extract (fresh ∅)))).
    vm_compute. discriminate.
  - apply (proj1 (proj2 (execYtDlp_resolves_iff_exit_zero E dump (fresh ∅)))).
    reflexivity.
Defined.

(** ** Rules for handler bodies *)

Lemma wp_ret {A} (a : A) s Q : Q (Ok a) s -> wp (ret a) s Q.
Proof. exact (fun H => H). Qed.

Lemma wp_throw {A} (e : JsError) s (Q : Outcome A -> State -> Prop) :
  Q (Throw e) s -> wp (throw e) s Q.
Proof. exact (fun H => H). Qed.

Lemma wp_bind {A B} (m : M A) (k : A -> M B) s Q :
  wp m s (fun o s' => match o with
                      | Ok a => wp (k a) s' Q
                      | Throw e => Q (Throw e) s'
                      end) ->
  wp (bind m k) s Q.
Proof. unfold wp, bind. now destruct (m s) as [[a|e] s']. Qed.

Lemma wp_try_catch {A} (m : M A) (handler : JsError -> M A) s Q :
  wp m s (fun o s' => match o with
                      | Ok a => Q (Ok a) s'
                      | Throw e => wp (handler e) s' Q
                      end) ->
  wp (try_catch m handler) s Q.
Proof. unfold wp, try_catch. now destruct (m s) as [[a|e] s']. Qed.

Lemma wp_settle (m : M Phase) s (Q : Phase -> State -> Prop) :
  wp m s (fun o s' => match o with
                      | Ok ph => Q ph s'
                      | Throw e => Q (Rejected e) s'
                      end) ->
  Q (fst (settle m s)) (snd (settle m s)).
Proof. unfold wp, settle. now destruct (m s) as [[a|e] s']. Qed.

Lemma wp_identifier x sc v s Q :
  resolve x sc = Some v -> Q (Ok v) s -> wp (identifier x sc) s Q.
Proof. unfold wp, identifier. now intros ->. Qed.

Lemma wp_lift {A} (o : Outcome A) s Q : Q o s -> wp (lift o) s Q.
Proof. exact (fun H => H). Qed.

Lemma wp_emit e s Q : Q (Ok tt) (record e s) -> wp (emit e) s Q.
Proof. exact (fun H => H). Qed.

Lemma wp_uuid E s Q :
  Q (Ok (uuidv4 E (uuid_calls s)))
    {| fs := fs s; res := res s; responded := responded s;
       uuid_calls := S (uuid_calls s); trace := trace s |} ->
  wp (uuid E) s Q.
Proof. exact (fun H => H). Qed.

Lemma wp_execYtDlp E args s Q :
  (let proc := yt_dlp E args (fs s) in
   let s' := with_fs (fs_after proc) (record (Spawn args) s) in
   (exit_code proc = Some 0 -> Q (Ok (accumulate (out_chunks proc))) s') /\
   (exit_code proc <> Some 0 ->
    Q (Throw (Error (js_or (Some (accumulate (err_chunks proc)))
                       (js "yt-dlp failed")))) s')) ->
  wp (execYtDlp E args) s Q.
Proof.
  unfold wp, execYtDlp. cbv zeta. intros [Hok Hko].
  destruct (exit_code _) as [[| |]|]; cbn [fst snd];
    first [now apply Hok | now apply Hko].
Qed.

Lemma wp_access file s Q :
  (file ∈ fs s -> Q (Ok tt) s) ->
  (file ∉ fs s ->
   Q (Throw (Error (js "ENOENT: no such file or directory, access '"
                      ++ file ++ js "'"))) s) ->
  wp (access file) s Q.
Proof. unfold wp, access. intros Hin Hout. destruct (decide _); cbn; auto. Qed.

Lemma wp_downloadThumbnail E url file s Q :
  (forall e, axios_stream E url file = RequestFailed e ->
     Q (Throw e) (record (Fetch url file) s)) ->
  (forall e created, axios_stream E url file = WriterFailed e created ->
     Q (Throw e)
       (if created
        then with_fs (fs s ∪ {[file]}) (record (Fetch url file) s)
        else record (Fetch url file) s)) ->
  (axios_stream E url file = WriterFinished ->
     Q (Ok tt) (with_fs (fs s ∪ {[file]}) (record (Fetch url file) s))) ->
  wp (downloadThumbnail E url file) s Q.
Proof.
  unfold wp, downloadThumbnail. intros H1 H2 H3.
  destruct (axios_stream E url file); cbn; auto.
Qed.

Lemma wp_write_tags E tags file s Q :
  Q (Ok (NodeID3_write E tags file))
    (record (TagWrite tags file (NodeID3_write E tags file)) s) ->
  wp (write_tags E tags file) s Q.
Proof. exact (fun H => H). Qed.

Lemma wp_setHeader k v s Q :
  headersSent (res s) = false ->
  Q (Ok tt)
    (with_res {| statusCode := statusCode (res s);
                 headers := headers (res s) ++ [(k, v)];
                 headersSent := false; finished := finished (res s);
                 gone := gone (res s); wire := wire (res s) |} s) ->
  wp (setHeader k v) s Q.
Proof. unfold wp, setHeader, res_setHeader. now intros ->. Qed.

Lemma download_catch_rejects (E : Env) (url format : jsstring) (e : JsError) (s : State) :
  download_catch E (handler_scope E url format) e s
  = (Throw {| kind := ReferenceError; message := js "filePath is not defined" |},
     record (Log LError (js "Error downloading file:")) s).
Proof. reflexivity. Qed.

Lemma wp_download_catch E url format e s Q :
  Q (Throw {| kind := ReferenceError; message := js "filePath is not defined" |})
    (record (Log LError (js "Error downloading file:")) s) ->
  wp (download_catch E (handler_scope E url format) e) s Q.
Proof. unfold wp. now rewrite download_catch_rejects. Qed.

Ltac normalize :=
  cbn [fs res responded uuid_calls trace with_fs with_res with_responded record
       fresh fresh_response app fst snd statusCode headers headersSent finished
       gone wire].

Ltac wp_lookup := eapply wp_bind, wp_identifier; [reflexivity|].

(** A leaf of the [try] block that throws: the [catch] clause runs. *)
Ltac caught Hmeta :=
  apply wp_download_catch; normalize;
  eapply outcome_rejected; eauto; normalize;
  [ repeat constructor
  | intros ? ? Hm; first
      [ exfalso; destruct Hm as (?&?&?); unfold Error in *; congruence
      | pose proof Hmeta as Hmeta'; destruct Hm as (Hm1&Hm2&Hm3);
        destruct Hmeta' as (_&Hp&Ht); rewrite Hp in Hm2;
        injection Hm2 as <-; rewrite Ht in Hm3; injection Hm3 as <-;
        eexists; unfold extraction_args;
        first [rewrite decide_True by reflexivity
              |rewrite decide_False by assumption]; reflexivity ] ].

Lemma download_sound (E : Env) (body : Body) (files : gset (list N)) :
  download_outcome E body files
    (fst (download E body (fresh files))) (snd (download E body (fresh files))).
Proof.
  Opaque js accumulate replace_non_alnum attachment.
  unfold download.
  destruct (truthy_str (req_url body)) as [url|] eqn:Hurl;
    [destruct (truthy_str (req_format body)) as [format|] eqn:Hformat|];
    [|apply outcome_invalid; [auto|reflexivity..]..].
  apply wp_settle, wp_try_catch. unfold download_try.
  do 3 wp_lookup.
  apply wp_bind, wp_execYtDlp. cbv zeta. normalize. split; intros Hdump.
  2: { caught I. }
  apply wp_bind, wp_lift.
  destruct (JSON_parse E _) as [[meta|]|e] eqn:Hparse.
  2: { apply wp_throw. caught I. }
  2: { caught I. }
  destruct (info_title meta) as [raw|] eqn:Htitle.
  2: { apply wp_throw. caught I. }
  assert (Hmeta : metadata_of E url files meta raw) by (repeat split; assumption).
  apply wp_bind, wp_uuid. apply wp_bind, wp_uuid. normalize.
  destruct (decide (format = js "mp3")) as [->|Hfmt].
  - unfold audio_branch, try_scope. do 4 wp_lookup.
    apply wp_bind, wp_execYtDlp. cbv zeta. normalize. split; intros Hx.
    2: { caught Hmeta. }
    apply wp_bind, wp_access; [intros Hin|intros Hout; caught Hmeta].
    apply wp_bind, wp_downloadThumbnail;
      [intros e He; caught Hmeta
      |intros e [] He; caught Hmeta
      |intros Hfetch].
    apply wp_bind, wp_write_tags. normalize.
    fold (thumbnail_path E raw). fold (primary_path E raw (js "mp3")).
    fold (tags_of E (req_artist body) meta raw).
    pose proof (outcome_streaming E body files url (js "mp3") meta raw) as Hout.
    unfold branch_of, extraction_args in Hout.
    rewrite !decide_True in Hout by reflexivity.
    revert Hout.
    destruct (NodeID3_write E _ _) eqn:Hok; intros Hout; cbn [negb].
    + apply wp_bind, wp_ret.
      apply wp_bind, wp_setHeader; [reflexivity|].
      apply wp_bind, wp_setHeader; [reflexivity|].
      apply wp_bind, wp_emit. apply wp_ret. normalize.
      apply Hout; auto. set_solver.
    + apply wp_bind, wp_emit.
      apply wp_bind, wp_setHeader; [reflexivity|].
      apply wp_bind, wp_setHeader; [reflexivity|].
      apply wp_bind, wp_emit. apply wp_ret. normalize.
      apply Hout; auto. set_solver.
  - unfold video_branch, try_scope. do 4 wp_lookup.
    apply wp_bind, wp_execYtDlp. cbv zeta. normalize. split; intros Hx.
    2: { caught Hmeta. }
    apply wp_bind, wp_access; [intros Hin|intros Hout; caught Hmeta].
    apply wp_bind, wp_setHeader; [reflexivity|].
    apply wp_bind, wp_setHeader; [reflexivity|].
    apply wp_bind, wp_emit. apply wp_ret.
    fold (thumbnail_path E raw). fold (primary_path E raw format).
    pose proof (outcome_streaming E body files url format meta raw) as Hout.
    unfold branch_of, extraction_args in Hout.
    rewrite !decide_False in Hout by assumption.
    apply Hout; auto.
  Transparent js accumulate replace_non_alnum attachment.
Qed.

(** ** The streaming phase *)

Lemma json_calls_app (t u : list Effect) :
  json_calls (t ++ u) = (json_calls t + json_calls u)%nat.
Proof. unfold json_calls. now rewrite List.filter_app, length_app. Qed.

Lemma cleanup_calls_app (t u : list Effect) :
  cleanup_calls (t ++ u) = (cleanup_calls t + cleanup_calls u)%nat.
Proof. unfold cleanup_calls. now rewrite List.filter_app, length_app. Qed.

Lemma json_calls_snoc (t : list Effect) (e : Effect) :
  json_calls (t ++ [e]) = (json_calls t + if is_send_json e then 1 else 0)%nat.
Proof. rewrite json_calls_app. unfold json_calls. cbn. now destruct (is_send_json e). Qed.

Lemma cleanup_calls_snoc (t : list Effect) (e : Effect) :
  cleanup_calls (t ++ [e]) = (cleanup_calls t + if is_cleanup e then 1 else 0)%nat.
Proof. rewrite cleanup_calls_app. unfold cleanup_calls. cbn. now destruct (is_cleanup e). Qed.

Arguments json_calls : simpl never.
Arguments cleanup_calls : simpl never.

Lemma attempts_no_calls (t : list Effect) :
  Forall (fun e => is_attempt e = true) t ->
  json_calls t = 0%nat /\ cleanup_calls t = 0%nat.
Proof.
  induction 1 as [|e t He _ [IHj IHc]]; [now split|].
  change (e :: t) with ([e] ++ t).
  rewrite json_calls_app, cleanup_calls_app, IHj, IHc.
  destruct e; try discriminate He; split; reflexivity.
Qed.

Lemma cleanup_file_frame (E : Env) (s : State) (file : jsstring) :
  res (cleanup_file E s file) = res s /\
  responded (cleanup_file E s file) = responded s /\
  exists extra, trace (cleanup_file E s file) = trace s ++ extra /\
                Forall (fun e => is_deletion e = true) extra.
Proof.
  unfold cleanup_file.
  destruct (decide (file ∈ fs s)); [destruct (unlink_ok E file)|]; cbn.
  - repeat split. eexists. rewrite <- app_assoc. split; [reflexivity|].
    repeat constructor.
  - repeat split. eexists. rewrite <- app_assoc. split; [reflexivity|].
    repeat constructor.
  - repeat split. exists []. now rewrite app_nil_r.
Qed.

Lemma cleanup_files_frame (E : Env) (files : list jsstring) (s : State) :
  res (cleanup_files E files s) = res s /\
  responded (cleanup_files E files s) = responded s /\
  exists extra, trace (cleanup_files E files s) = trace s ++ extra /\
                Forall (fun e => is_deletion e = true) extra.
Proof.
  unfold cleanup_files. revert s.
  induction files as [|file files IH]; intros s; cbn.
  - repeat split. exists []. now rewrite app_nil_r.
  - destruct (IH (cleanup_file E s file)) as (Hr & Hd & extra & Ht & Hx).
    destruct (cleanup_file_frame E s file) as (Hr' & Hd' & extra' & Ht' & Hx').
    rewrite Hr, Hd, Ht, Hr', Hd', Ht'. repeat split.
    exists (extra' ++ extra). rewrite app_assoc. split; [reflexivity|].
    now apply Forall_app.
Qed.

Lemma deletions_no_calls (t : list Effect) :
  Forall (fun e => is_deletion e = true) t ->
  json_calls t = 0%nat /\ cleanup_calls t = 0%nat.
Proof.
  induction 1 as [|e t He _ [IHj IHc]]; [now split|].
  change (e :: t) with ([e] ++ t).
  rewrite json_calls_app, cleanup_calls_app, IHj, IHc.
  destruct e; try discriminate He; split; reflexivity.
Qed.

(** A file that [cleanup] managed to delete stays deleted, one it could not
    delete stays: running the loop again changes no file. *)
Lemma cleanup_file_fs (E : Env) (s : State) (file : jsstring) :
  fs (cleanup_file E s file)
  = if unlink_ok E file then fs s ∖ {[file]} else fs s.
Proof.
  unfold cleanup_file.
  destruct (decide (file ∈ fs s)); destruct (unlink_ok E file); cbn;
    try reflexivity.
  apply leibniz_equiv. set_solver.
Qed.

Lemma cleanup_files_fs (E : Env) (files : list jsstring) (s : State) :
  fs (cleanup_files E files s)
  = fs s ∖ list_to_set (filter (fun f => unlink_ok E f = true) files).
Proof.
  unfold cleanup_files. revert s.
  induction files as [|file files IH]; intros s; cbn [fold_left].
  - cbn. apply leibniz_equiv. set_solver.
  - rewrite IH, cleanup_file_fs. rewrite filter_cons.
    destruct (unlink_ok E file) eqn:Hok.
    + rewrite decide_True by reflexivity. apply leibniz_equiv. set_solver.
    + rewrite decide_False by discriminate. reflexivity.
Qed.

Lemma cleanup_files_idempotent (E : Env) (files : list jsstring) (s : State) :
  fs (cleanup_files E files (cleanup_files E files s))
  = fs (cleanup_files E files s).
Proof. rewrite !cleanup_files_fs. apply leibniz_equiv. set_solver. Qed.

(** *** Counting [cleanup] calls *)

Lemma detached_continue_frame (k : Cont) (s : State) :
  cleanup_calls (trace (detached (continue k) s)) = cleanup_calls (trace s).
Proof.
  unfold detached, continue.
  destruct k as [m| |]; cbn.
  - unfold sendError. destruct (responded s); cbn; [reflexivity|].
    unfold status_json. cbn.
    destruct (res_json _ _); cbn; rewrite !cleanup_calls_snoc; cbn; lia.
  - destruct (negb (responded s)); reflexivity.
  - reflexivity.
Qed.

Lemma step_cleanup_calls (E : Env) (b : Branch) (f t : jsstring) (l : Live) (ev : Event) :
  cleanup_calls (trace (here (step E b f t l ev)))
  = (cleanup_calls (trace (here l)) + (if is_terminal ev then 1 else 0))%nat.
Proof.
  destruct ev as [chunk|msg| | |i]; cbn;
    rewrite ?cleanup_calls_snoc; cbn; try lia.
  destruct (suspended l !! i) as [task|]; cbn; [|lia].
  rewrite detached_continue_frame.
  destruct (cleanup_files_frame E (task_files task) (here l))
    as (_ & _ & extra & -> & Hx).
  rewrite cleanup_calls_app. apply deletions_no_calls in Hx as [_ ->]. lia.
Qed.

Lemma run_cleanup_calls (E : Env) (b : Branch) (f t : jsstring) (evs : list Event) (l : Live) :
  cleanup_calls (trace (here (run E b f t l evs)))
  = (cleanup_calls (trace (here l)) + length (List.filter is_terminal evs))%nat.
Proof.
  unfold run. revert l.
  induction evs as [|ev evs IH]; intros l; cbn [fold_left List.filter].
  - cbn. lia.
  - rewrite IH, step_cleanup_calls.
    destruct (is_terminal ev); cbn [length]; lia.
Qed.

Lemma step_cleans_only (E : Env) (b : Branch) (f t : jsstring) (l : Live) (ev : Event) :
  Forall (cleans_only (temp_files b f t)) (trace (here l)) ->
  Forall (cleans_only (temp_files b f t)) (trace (here (step E b f t l ev))).
Proof.
  intros Hl.
  destruct ev as [chunk|msg| | |i]; cbn; rewrite ?Forall_app;
    repeat split; auto; try (repeat constructor).
  destruct (suspended l !! i) as [task|]; cbn; [|assumption].
  destruct (cleanup_files_frame E (task_files task) (here l))
    as (_ & _ & extra & Ht & Hx).
  assert (Hc : Forall (cleans_only (temp_files b f t))
                 (trace (cleanup_files E (task_files task) (here l)))).
  { rewrite Ht, Forall_app. split; [assumption|].
    eapply Forall_impl; [exact Hx|]. intros [] He; try discriminate He; exact I. }
  revert Hc. generalize (cleanup_files E (task_files task) (here l)). intros s Hc.
  unfold detached, continue. destruct (task_then task) as [m| |]; cbn; auto.
  - unfold sendError. destruct (responded s); cbn; [assumption|].
    unfold status_json. cbn.
    destruct (res_json _ _); cbn; rewrite ?Forall_app; repeat split; auto;
      repeat constructor.
  - now destruct (negb (responded s)).
Qed.

Lemma run_cleans_only (E : Env) (b : Branch) (f t : jsstring) (evs : list Event) (l : Live) :
  Forall (cleans_only (temp_files b f t)) (trace (here l)) ->
  Forall (cleans_only (temp_files b f t)) (trace (here (run E b f t l evs))).
Proof.
  unfold run. revert l.
  induction evs as [|ev evs IH]; intros l Hl; cbn [fold_left]; [assumption|].
  apply IH, step_cleans_only, Hl.
Qed.

(** *** The one-shot guard *)

Lemma step_guard (E : Env) (b : Branch) (f t : jsstring) (l : Live) (ev : Event) :
  guard_invariant (here l) -> guard_invariant (here (step E b f t l ev)).
Proof.
  unfold guard_invariant. intros [Hle Hzero].
  destruct ev as [chunk|msg| | |i]; cbn;
    rewrite ?json_calls_snoc; cbn; rewrite ?Nat.add_0_r; try (split; assumption).
  destruct (suspended l !! i) as [task|]; cbn; [|split; assumption].
  destruct (cleanup_files_frame E (task_files task) (here l))
    as (_ & Hd & extra & Ht & Hx).
  apply deletions_no_calls in Hx as [Hx _].
  assert (Hle' : (json_calls (trace (cleanup_files E (task_files task) (here l))) <= 1)%nat)
    by (rewrite Ht, json_calls_app, Hx; lia).
  assert (Hzero' : responded (cleanup_files E (task_files task) (here l)) = false ->
                   json_calls (trace (cleanup_files E (task_files task) (here l))) = 0%nat)
    by (rewrite Hd, Ht, json_calls_app, Hx; intros Hf; rewrite (Hzero Hf); lia).
  revert Hle' Hzero'.
  generalize (cleanup_files E (task_files task) (here l)). clear. intros s Hle Hzero.
  unfold detached, continue. destruct (task_then task) as [m| |]; cbn.
  - unfold sendError. destruct (responded s) eqn:Hr; cbn;
      [split; [assumption|congruence]|].
    unfold status_json. cbn.
    destruct (res_json _ _); cbn; rewrite ?json_calls_snoc, (Hzero eq_refl); cbn;
      (split; [lia|discriminate]).
  - destruct (responded s) eqn:Hr; cbn; [split; [assumption|congruence]|].
    split; [assumption|discriminate].
  - split; assumption.
Qed.

Lemma run_guard (E : Env) (b : Branch) (f t : jsstring) (evs : list Event) (l : Live) :
  guard_invariant (here l) -> guard_invariant (here (run E b f t l evs)).
Proof.
  unfold run. revert l.
  induction evs as [|ev evs IH]; intros l Hl; cbn [fold_left]; [assumption|].
  apply IH, step_guard, Hl.
Qed.

(** *** The status line is written once *)

Lemma keeps_status_refl (r : Response) : head_consistent r -> keeps_status r r.
Proof. now split. Qed.

Lemma keeps_status_trans (r1 r2 r3 : Response) :
  keeps_status r1 r2 -> keeps_status r2 r3 -> keeps_status r1 r3.
Proof. intros [_ H12] [H3 H23]. split; auto. Qed.

Ltac response_cases r :=
  destruct r as [? ? [] [] [] [[? ?]|]];
  unfold keeps_status, head_consistent, wire_status, res_write, res_end,
    res_closed, res_status, res_json, flush_head, put, finish in *;
  cbn in *; repeat split; intros;
  repeat match goal with
         | H : ?a = ?a -> _ |- _ => specialize (H eq_refl)
         end;
  try congruence; try discriminate; auto.

Lemma res_write_keeps (chunk : jsstring) (r : Response) :
  head_consistent r -> keeps_status r (res_write chunk r).
Proof. intros Hr. response_cases r. Qed.

Lemma res_end_keeps (r : Response) :
  head_consistent r -> keeps_status r (res_end r).
Proof. intros Hr. response_cases r. Qed.

Lemma res_closed_keeps (r : Response) :
  head_consistent r -> keeps_status r (res_closed r).
Proof. intros Hr. response_cases r. Qed.

Lemma res_status_keeps (code : Z) (r : Response) :
  head_consistent r -> keeps_status r (res_status code r).
Proof. intros Hr. response_cases r. Qed.

Lemma res_json_keeps (body : Payload) (r r' : Response) :
  head_consistent r -> res_json body r = Ok r' -> keeps_status r r'.
Proof.
  intros Hr Hj. unfold res_json in Hj.
  destruct (headersSent r) eqn:Hs; [discriminate|].
  injection Hj as <-. specialize (Hr Hs).
  split.
  - unfold head_consistent. cbn. unfold flush_head. rewrite Hs. cbn. discriminate.
  - unfold wire_status at 1. rewrite Hr. discriminate.
Qed.

Lemma status_json_keeps (code : Z) (body : Payload) (s : State) :
  head_consistent (res s) ->
  keeps_status (res s) (res (snd (status_json code body s))).
Proof.
  intros Hr. unfold status_json.
  pose proof (res_status_keeps code (res s) Hr) as H1.
  destruct (res_json body (res_status code (res s))) as [r'|e] eqn:Hj; cbn.
  - eapply keeps_status_trans; [exact H1|].
    eapply res_json_keeps; [apply H1|exact Hj].
  - exact H1.
Qed.

Lemma detached_continue_keeps (k : Cont) (s : State) :
  head_consistent (res s) ->
  keeps_status (res s) (res (detached (continue k) s)).
Proof.
  intros Hr. unfold detached, continue. destruct k as [m| |]; cbn.
  - unfold sendError. destruct (responded s); cbn; [now apply keeps_status_refl|].
    pose proof (status_json_keeps 500 (Message m) (with_responded true s) Hr) as H.
    destruct (status_json 500 (Message m) (with_responded true s)) as [[u|e] s'];
      exact H.
  - destruct (negb (responded s)); now apply keeps_status_refl.
  - now apply keeps_status_refl.
Qed.

Lemma step_keeps (E : Env) (b : Branch) (f t : jsstring) (l : Live) (ev : Event) :
  head_consistent (res (here l)) ->
  keeps_status (res (here l)) (res (here (step E b f t l ev))).
Proof.
  intros Hr. destruct ev as [chunk|msg| | |i]; cbn.
  - now apply res_write_keeps.
  - now apply keeps_status_refl.
  - now apply res_end_keeps.
  - now apply res_closed_keeps.
  - destruct (suspended l !! i) as [task|]; cbn; [|now apply keeps_status_refl].
    destruct (cleanup_files_frame E (task_files task) (here l)) as (Hres & _).
    rewrite <- Hres at 1. apply detached_continue_keeps. now rewrite Hres.
Qed.

Lemma run_keeps (E : Env) (b : Branch) (f t : jsstring) (evs : list Event) (l : Live) :
  head_consistent (res (here l)) ->
  keeps_status (res (here l)) (res (here (run E b f t l evs))).
Proof.
  unfold run. revert l.
  induction evs as [|ev evs IH]; intros l Hl; cbn [fold_left].
  - now apply keeps_status_refl.
  - pose proof (step_keeps E b f t l ev Hl) as Hs.
    eapply keeps_status_trans; [exact Hs|]. apply IH, Hs.
Qed.

Lemma run_app (E : Env) (b : Branch) (f t : jsstring) (l : Live) (evs evs' : list Event) :
  run E b f t l (evs ++ evs') = run E b f t (run E b f t l evs) evs'.
Proof. unfold run. apply fold_left_app. Qed.

(** *** Streaming a file to its end *)

Lemma run_no_resume_json (E : Env) (b : Branch) (f t : jsstring) (evs : list Event) (l : Live) :
  Forall (fun ev => match ev with Resume _ => False | _ => True end) evs ->
  json_calls (trace (here (run E b f t l evs))) = json_calls (trace (here l)).
Proof.
  unfold run. revert l.
  induction evs as [|ev evs IH]; intros l Hevs; cbn [fold_left]; [reflexivity|].
  apply Forall_cons_1 in Hevs as [Hev Hevs].
  rewrite IH by assumption.
  destruct ev; cbn; rewrite ?json_calls_snoc; cbn; lia.
Qed.

Lemma run_data_streams (E : Env) (b : Branch) (f t : jsstring) (chunks : list jsstring)
    (l : Live) (sent : list Payload) :
  streaming_200 (res (here l)) sent ->
  streaming_200 (res (here (run E b f t l (map StreamData chunks))))
    (sent ++ map Chunk chunks)
  /\ (chunks <> [] ->
      wire (res (here (run E b f t l (map StreamData chunks))))
      = Some (200, sent ++ map Chunk chunks)).
Proof.
  unfold run. revert l sent.
  induction chunks as [|chunk chunks IH]; intros l sent Hs; cbn [map fold_left].
  - rewrite app_nil_r. split; [assumption|congruence].
  - assert (Hnext : streaming_200 (res (here (step E b f t l (StreamData chunk))))
                      (sent ++ [Chunk chunk])
                    /\ wire (res (here (step E b f t l (StreamData chunk))))
                       = Some (200, sent ++ [Chunk chunk])).
    { destruct Hs as (Hf & Hg & Hc & Hw). cbn. unfold res_write. rewrite Hf.
      unfold streaming_200, flush_head, put. cbn.
      destruct Hw as [(Hh & Hw & ->)|(Hh & Hw)]; rewrite Hh; cbn;
        rewrite ?Hg, ?Hw, ?Hc; cbn; rewrite ?Hf, ?Hg, ?Hc, ?Hh; auto 10. }
    destruct Hnext as [Hnext Hwire].
    destruct (IH _ _ Hnext) as [IH1 IH2].
    rewrite <- app_assoc in IH1, IH2. cbn in IH1, IH2.
    split; [exact IH1|]. intros _.
    destruct chunks as [|chunk' chunks]; [|apply IH2; discriminate].
    cbn. exact Hwire.
Qed.

Lemma stream_end_completes (E : Env) (b : Branch) (f t : jsstring) (l : Live)
    (sent : list Payload) :
  streaming_200 (res (here l)) sent ->
  wire (res (here (step E b f t l StreamEnd))) = Some (200, sent) /\
  finished (res (here (step E b f t l StreamEnd))) = true.
Proof.
  intros (Hf & Hg & Hc & Hw). cbn. unfold res_end. rewrite Hf.
  unfold flush_head, finish. cbn.
  destruct Hw as [(Hh & Hw & ->)|(Hh & Hw)]; rewrite Hh; cbn;
    rewrite ?Hg, ?Hw, ?Hc; auto.
Qed.

(** * Properties of the two routes *)

Lemma download_outcome_of (E : Env) (body : Body) (files : gset (list N))
    (ph : Phase) (s : State) :
  download E body (fresh files) = (ph, s) -> download_outcome E body files ph s.
Proof.
  intros H. pose proof (download_sound E body files) as Hs.
  now rewrite H in Hs.
Qed.

(** ** Failure before streaming *)

(** C1 (what the code does): when metadata resolution succeeds and the
    extraction run closes with a code other than zero, the [catch] clause
    throws a ReferenceError on its first use of [filePath], a [const] of
    the [try] block: the handler rejects, [cleanup] is never called,
    no response is sent, and the files the tool left behind stay. *)
Theorem extraction_failure_skips_cleanup (E : Env) (body : Body)
    (files : gset (list N)) (url format : jsstring) (meta : Info) (raw : jsstring) :
  truthy_str (req_url body) = Some url ->
  truthy_str (req_format body) = Some format ->
  metadata_of E url files meta raw ->
  let extraction :=
    yt_dlp E (extraction_args format (primary_path E raw format) url)
      (fs_after (yt_dlp E [js "--dump-json"; url] files)) in
  exit_code extraction <> Some 0 ->
  let result := download E body (fresh files) in
  fst result = Rejected filePath_is_not_defined /\
  cleanup_calls (trace (snd result)) = 0%nat /\
  json_calls (trace (snd result)) = 0%nat /\
  wire (res (snd result)) = None /\
  fs (snd result) = fs_after extraction.
Proof.
  Opaque js accumulate replace_non_alnum attachment.
  intros Hurl Hformat (Hdump & Hparse & Htitle) extraction Hfail result.
  subst result extraction. revert Hfail. unfold download.
  rewrite Hurl, Hformat. intros Hfail.
  apply (wp_settle _ _ (fun ph s =>
    ph = Rejected filePath_is_not_defined /\ cleanup_calls (trace s) = 0%nat /\
    json_calls (trace s) = 0%nat /\ wire (res s) = None /\ fs s = _)).
  apply wp_try_catch. unfold download_try. do 3 wp_lookup.
  apply wp_bind, wp_execYtDlp. cbv zeta. normalize.
  split; [intros _|intros Hc; now elim Hc].
  apply wp_bind, wp_lift. rewrite Hparse, Htitle.
  apply wp_bind, wp_uuid. apply wp_bind, wp_uuid. normalize.
  unfold extraction_args, primary_path in Hfail |- *.
  destruct (decide (format = js "mp3")) as [->|Hfmt].
  - unfold audio_branch, try_scope. do 4 wp_lookup.
    apply wp_bind, wp_execYtDlp. cbv zeta. normalize.
    split; [intros Hc; now elim Hfail|intros _].
    apply wp_download_catch. normalize. repeat split; reflexivity.
  - unfold video_branch, try_scope. do 4 wp_lookup.
    apply wp_bind, wp_execYtDlp. cbv zeta. normalize.
    split; [intros Hc; now elim Hfail|intros _].
    apply wp_download_catch. normalize. repeat split; reflexivity.
  Transparent js accumulate replace_non_alnum attachment.
Qed.

(** The failing request of C1: the tool dumps metadata, then leaves a
    partial file and closes with code 1. *)
Lemma extraction_failure_leaves_file :
  let E := Sample.env Sample.song (Some 1) [js "ERROR: unavailable"] true in
  let result := download E (Sample.request (js "mp3")) (fresh ∅) in
  (fst result = Rejected filePath_is_not_defined /\
   cleanup_calls (trace (snd result)) = 0%nat /\
   json_calls (trace (snd result)) = 0%nat /\
   wire (res (snd result)) = None /\
   fs (snd result)
   = fs_after (yt_dlp E (extraction_args (js "mp3")
                           (primary_path E (js "My Song!") (js "mp3"))
                           (js "https://v/1"))
                 (fs_after (yt_dlp E [js "--dump-json"; js "https://v/1"] ∅)))) /\
  js "/app/temp/My_Song__u0.mp3" ∈ fs (snd result).
Proof.
  intros E result. split.
  - apply (extraction_failure_skips_cleanup E (Sample.request (js "mp3")) ∅
             (js "https://v/1") (js "mp3") Sample.song (js "My Song!")).
    + reflexivity.
    + reflexivity.
    + repeat split; reflexivity.
    + vm_compute. discriminate.
  - vm_compute. reflexivity.
Defined.

(** ** The listeners of the streaming phase *)

Lemma streaming_start (E : Env) (body : Body) (files : gset (list N))
    (b : Branch) (f t : jsstring) (s : State) :
  download E body (fresh files) = (Streaming b f t, s) ->
  cleanup_calls (trace s) = 0%nat /\
  json_calls (trace s) = 0%nat /\
  responded s = false /\
  streaming_200 (res s) [] /\
  Forall (cleans_only (temp_files b f t)) (trace s).
Proof.
  intros H. apply download_outcome_of in H.
  inversion H as [| |url format meta raw s' Hurl Hformat Hmeta b' f' tags Hx Htrace Hres Hresp Hin];
    subst.
  rewrite Htrace, Hres, Hresp. unfold streaming_200. cbn.
  destruct b'; [destruct (NodeID3_write E tags f')|]; cbn;
    repeat split; auto; repeat constructor.
Qed.

(** C2, as stated, fails: on a normal end of stream the ['end'] listener
    calls [cleanup] and so does the ['close'] listener of the response
    that has just been completed: two calls, not one. *)
Lemma cleanup_runs_twice_on_normal_end :
  let l := serve (Sample.env Sample.song (Some 0) [] true)
             (Sample.request (js "mp3")) ∅
             [StreamData (js "x"); StreamEnd; Resume 0; ResClose; Resume 0] in
  cleanup_calls (trace (here l)) = 2%nat /\
  cleanup_calls (trace (here l)) <> 1%nat.
Proof. vm_compute. split; [reflexivity|discriminate]. Qed.

(** C2, amended: for every /download request that reaches streaming, each
    terminal trigger that fires (stream error, end of stream, connection
    close) calls [cleanup] once, always over that request's temp asset
    paths; so the number of [cleanup] calls is the number of triggers that
    fired, which is two when the connection's close follows the end of the
    stream or a stream error.  Running [cleanup] again is harmless: a second
    run over the same paths leaves the same files. *)
Theorem cleanup_once_per_trigger (E : Env) (body : Body) (files : gset (list N))
    (b : Branch) (filePath thumbnailPath : jsstring) (s : State) (evs : list Event) :
  download E body (fresh files) = (Streaming b filePath thumbnailPath, s) ->
  let l := serve E body files evs in
  let paths := temp_files b filePath thumbnailPath in
  cleanup_calls (trace (here l)) = length (List.filter is_terminal evs) /\
  Forall (cleans_only paths) (trace (here l)) /\
  forall s', fs (cleanup_files E paths (cleanup_files E paths s'))
             = fs (cleanup_files E paths s').
Proof.
  intros H l paths. subst l paths. unfold serve. rewrite H.
  destruct (streaming_start _ _ _ _ _ _ _ H) as (Hc & _ & _ & _ & Hall).
  split; [|split].
  - rewrite run_cleanup_calls. cbn [here]. rewrite Hc. reflexivity.
  - apply run_cleans_only. exact Hall.
  - intros s'. apply cleanup_files_idempotent.
Qed.

Lemma cleanup_once_per_trigger_witness :
  let E := Sample.env Sample.song (Some 0) [] true in
  let evs := [StreamData (js "x"); StreamError (js "EIO"); Resume 0; ResClose; Resume 0] in
  let l := serve E (Sample.request (js "mp4")) ∅ evs in
  let paths := temp_files Video (js "/app/temp/My_Song__u0.mp4")
                 (js "/app/temp/My_Song__u1.jpg") in
  cleanup_calls (trace (here l)) = length (List.filter is_terminal evs) /\
  Forall (cleans_only paths) (trace (here l)) /\
  forall s', fs (cleanup_files E paths (cleanup_files E paths s'))
             = fs (cleanup_files E paths s').
Proof.
  intros E evs l paths.
  eapply (cleanup_once_per_trigger E (Sample.request (js "mp4")) ∅ Video
            (js "/app/temp/My_Song__u0.mp4") (js "/app/temp/My_Song__u1.jpg")).
  vm_compute. reflexivity.
Defined.

Lemma step_error_responses (E : Env) (b : Branch) (f t : jsstring) (l : Live) (ev : Event) :
  Forall is_error_response (trace (here l)) ->
  Forall is_error_response (trace (here (step E b f t l ev))).
Proof.
  intros Hl.
  destruct ev as [chunk|msg| | |i]; cbn; rewrite ?Forall_app;
    repeat split; auto; try (repeat constructor).
  destruct (suspended l !! i) as [task|]; cbn; [|assumption].
  destruct (cleanup_files_frame E (task_files task) (here l))
    as (_ & _ & extra & Ht & Hx).
  assert (Hc : Forall is_error_response
                 (trace (cleanup_files E (task_files task) (here l)))).
  { rewrite Ht, Forall_app. split; [assumption|].
    eapply Forall_impl; [exact Hx|]. intros [] He; try discriminate He; exact I. }
  revert Hc. generalize (cleanup_files E (task_files task) (here l)). intros s Hc.
  unfold detached, continue. destruct (task_then task) as [m| |]; cbn; auto.
  - unfold sendError. destruct (responded s); cbn; [assumption|].
    unfold status_json. cbn.
    destruct (res_json _ _); cbn; rewrite ?Forall_app; repeat split; auto;
      (apply Forall_cons; split; [cbn; auto|constructor]).
  - now destruct (negb (responded s)).
Qed.

Lemma run_error_responses (E : Env) (b : Branch) (f t : jsstring) (evs : list Event) (l : Live) :
  Forall is_error_response (trace (here l)) ->
  Forall is_error_response (trace (here (run E b f t l evs))).
Proof.
  unfold run. revert l.
  induction evs as [|ev evs IH]; intros l Hl; cbn [fold_left]; [assumption|].
  apply IH, step_error_responses, Hl.
Qed.

(** C3: in every /download request, whatever events reach its listeners
    and in whatever order they are resumed, [res.json] is called at most
    once, and each such call is an error response (400 or 500); and a
    status code that has gone out on the wire is the status code of the
    response for good, whatever happens afterwards. *)
Theorem at_most_one_error_response (E : Env) (body : Body) (files : gset (list N))
    (evs : list Event) :
  let l := serve E body files evs in
  (json_calls (trace (here l)) <= 1)%nat /\
  Forall is_error_response (trace (here l)) /\
  forall evs' c,
    wire_status (res (here l)) = Some c ->
    wire_status (res (here (serve E body files (evs ++ evs')))) = Some c.
Proof.
  intros l. subst l. unfold serve.
  destruct (download E body (fresh files)) as [ph s] eqn:Hd.
  pose proof (download_outcome_of _ _ _ _ _ Hd) as Ho.
  inversion Ho as [s' Hmiss Hfs Htrace Hwire Hsent
                  |url format s' Hurl Hformat Hatt Hres Hresp Hprefix
                  |url format meta raw s' Hurl Hformat Hmeta b' f' tags Hx Htrace Hres Hresp Hin];
    subst.
  - cbn [here]. rewrite Htrace. split; [|split]; auto.
    apply Forall_cons; split; [left; reflexivity|constructor].
  - cbn. rewrite json_calls_snoc. cbn.
    destruct (attempts_no_calls _ Hatt) as [-> _].
    split; [lia|]. split; [|auto].
    rewrite Forall_app. split; [|repeat constructor].
    eapply Forall_impl; [exact Hatt|]. intros [] He; try discriminate He; exact I.
  - destruct (streaming_start _ _ _ _ _ _ _ Hd) as (_ & Hj & Hr & Hs & _).
    split; [|split].
    + apply run_guard. split; cbn; [lia|auto].
    + apply run_error_responses. cbn. rewrite Htrace.
      destruct b'; [destruct (NodeID3_write E tags f')|]; repeat constructor.
    + intros evs' c Hc. rewrite run_app.
      refine (proj2 (run_keeps E _ _ _ evs' _ _) c Hc).
      apply (run_keeps E _ _ _ evs {| here := s; suspended := [] |}).
      cbn. rewrite Hres. intros _. reflexivity.
Qed.

Lemma at_most_one_error_response_witness :
  let E := Sample.env Sample.song (Some 0) [] true in
  let body := Sample.request (js "mp3") in
  let evs := [StreamData (js "x")] in
  wire_status (res (here (serve E body ∅ evs))) = Some 200 /\
  wire_status
    (res (here (serve E body ∅ (evs ++ [StreamError (js "EIO"); Resume 0]))))
  = Some 200.
Proof.
  intros E body evs. split.
  - vm_compute. reflexivity.
  - apply (proj2 (proj2 (at_most_one_error_response E body ∅ evs))).
    vm_compute. reflexivity.
Defined.

(** ** Tag embedding *)

Lemma tags_of_artist (E : Env) (artist : field) (meta : Info) (raw : jsstring) :
  tag_artist (tags_of E artist meta raw)
  = artist_precedence artist (info_uploader meta) (info_artist meta).
Proof.
  unfold tags_of, artist_precedence, js_or, truthy_str. cbn.
  destruct artist as [[|? ?]|], (info_uploader meta) as [[|? ?]|],
    (info_artist meta) as [[|? ?]|]; reflexivity.
Qed.

(** A tag write in the trace of a handler invocation pins down how the
    invocation went. *)
Lemma tag_write_inv (E : Env) (body : Body) (files : gset (list N))
    (ph : Phase) (s : State) (tags : Tags) (file : jsstring) (ok : bool) :
  download E body (fresh files) = (ph, s) ->
  In (TagWrite tags file ok) (trace s) ->
  exists url meta raw,
    truthy_str (req_url body) = Some url /\
    truthy_str (req_format body) = Some (js "mp3") /\
    metadata_of E url files meta raw /\
    tags = tags_of E (req_artist body) meta raw /\
    file = primary_path E raw (js "mp3") /\
    ok = NodeID3_write E tags file /\
    ph = Streaming Audio file (thumbnail_path E raw) /\
    trace s
    = [Spawn [js "--dump-json"; url]; Spawn (audio_args file url);
       Fetch (info_thumbnail meta) (thumbnail_path E raw);
       TagWrite tags file ok]
      ++ (if ok then [] else [Log LWarn (js "Failed to write ID3 tags")])
      ++ [Pipe file].
Proof.
  intros Hd Hin. apply download_outcome_of in Hd.
  inversion Hd as [s' Hmiss Hfs Htrace Hwire Hsent
                  |url format s' Hurl Hformat Hatt Hres Hresp Hprefix
                  |url format meta raw s' Hurl Hformat Hmeta b' f' tags' Hx Htrace Hres Hresp Hf];
    subst.
  - rewrite Htrace in Hin. destruct Hin as [Hin|[]]. discriminate Hin.
  - rewrite Forall_forall in Hatt.
    apply list_elem_of_In, Hatt in Hin. discriminate Hin.
  - rewrite Htrace in Hin. subst b'. unfold branch_of, extraction_args in *.
    destruct (decide (format = js "mp3")) as [->|Hne].
    + assert (Htw : TagWrite tags file ok
                    = TagWrite tags' f' (NodeID3_write E tags' f')).
      { destruct Hin as [Hin|[Hin|[Hin|[Hin|Hin]]]]; try discriminate Hin.
        - now symmetry.
        - destruct (NodeID3_write E tags' f'); cbn in Hin;
            repeat (destruct Hin as [Hin|Hin]; try discriminate Hin);
            contradiction. }
      injection Htw as -> -> ->.
      exists url, meta, raw. repeat split; try assumption; try reflexivity.
      apply Hmeta. apply Hmeta. apply Hmeta.
    + destruct Hin as [Hin|[Hin|[Hin|[]]]]; discriminate Hin.
Qed.

(** C4: whenever the tag write of a /download request reports failure, the
    handler still ends with the file piped to the response: the failure is
    logged as a warning, no error response is made, and once the stream
    has delivered its chunks and ended the client has received them under
    status 200. *)
Theorem tag_failure_still_streams (E : Env) (body : Body) (files : gset (list N))
    (tags : Tags) (file : jsstring) :
  let result := download E body (fresh files) in
  In (TagWrite tags file false) (trace (snd result)) ->
  (exists thumbnailPath, fst result = Streaming Audio file thumbnailPath) /\
  In (Log LWarn (js "Failed to write ID3 tags")) (trace (snd result)) /\
  In (Pipe file) (trace (snd result)) /\
  json_calls (trace (snd result)) = 0%nat /\
  forall chunks,
    let l := serve E body files (map StreamData chunks ++ [StreamEnd]) in
    wire (res (here l)) = Some (200, map Chunk chunks) /\
    finished (res (here l)) = true /\
    json_calls (trace (here l)) = 0%nat.
Proof.
  intros result Hin. subst result.
  destruct (download E body (fresh files)) as [ph s] eqn:Hd. cbn [fst snd] in *.
  destruct (tag_write_inv _ _ _ _ _ _ _ _ Hd Hin)
    as (url & meta & raw & _ & _ & _ & _ & _ & _ & -> & Htrace).
  destruct (streaming_start _ _ _ _ _ _ _ Hd) as (_ & Hj & _ & Hs & _).
  split; [eauto|]. rewrite Htrace.
  split; [cbn; auto 10|]. split; [cbn; auto 10|].
  rewrite <- Htrace. split; [exact Hj|].
  intros chunks. cbv zeta. unfold serve. rewrite Hd. rewrite run_app.
  set (l0 := {| here := s; suspended := [] |}).
  destruct (run_data_streams E Audio file (thumbnail_path E raw) chunks l0 [] Hs)
    as [Hstream _].
  destruct (stream_end_completes E Audio file (thumbnail_path E raw) _ _ Hstream)
    as [Hwire Hfin].
  cbn [run fold_left]. cbn [app] in Hwire. split; [exact Hwire|].
  split; [exact Hfin|].
  change (step E Audio file (thumbnail_path E raw)
            (run E Audio file (thumbnail_path E raw) l0 (map StreamData chunks))
            StreamEnd)
    with (run E Audio file (thumbnail_path E raw)
            (run E Audio file (thumbnail_path E raw) l0 (map StreamData chunks))
            [StreamEnd]).
  rewrite <- run_app, run_no_resume_json; [exact Hj|].
  rewrite Forall_app. split; [|repeat constructor].
  apply Forall_forall. intros ev Hev. apply list_elem_of_In, in_map_iff in Hev.
  destruct Hev as (c & <- & _). exact I.
Qed.

Lemma tag_failure_still_streams_witness :
  let E := Sample.env Sample.song (Some 0) [] false in
  let body := Sample.request (js "mp3") in
  let l := serve E body ∅ [StreamData (js "ID3"); StreamData (js "..."); StreamEnd] in
  In (TagWrite (tags_of E None Sample.song (js "My Song!"))
        (js "/app/temp/My_Song__u0.mp3") false)
     (trace (snd (download E body (fresh ∅)))) /\
  wire (res (here l)) = Some (200, [Chunk (js "ID3"); Chunk (js "...")]) /\
  finished (res (here l)) = true /\
  json_calls (trace (here l)) = 0%nat.
Proof.
  intros E body l.
  assert (Hin : In (TagWrite (tags_of E None Sample.song (js "My Song!"))
                      (js "/app/temp/My_Song__u0.mp3") false)
                   (trace (snd (download E body (fresh ∅))))).
  { vm_compute. right. right. right. left. reflexivity. }
  split; [exact Hin|].
  exact (proj2 (proj2 (proj2 (proj2
           (tag_failure_still_streams E body ∅ _ _ Hin))))
           [js "ID3"; js "..."]).
Defined.

(** C7: the artist of every tag set a /download request writes follows the
    precedence chain: the artist of the request when present, else the
    uploader of the metadata, else its artist, else 'Unknown Artist'. *)
Theorem tag_artist_precedence (E : Env) (body : Body) (files : gset (list N))
    (tags : Tags) (file : jsstring) (ok : bool) :
  let result := download E body (fresh files) in
  In (TagWrite tags file ok) (trace (snd result)) ->
  exists url meta raw,
    truthy_str (req_url body) = Some url /\
    metadata_of E url files meta raw /\
    tag_artist tags
    = artist_precedence (req_artist body) (info_uploader meta) (info_artist meta).
Proof.
  intros result Hin. subst result.
  destruct (download E body (fresh files)) as [ph s] eqn:Hd. cbn [fst snd] in *.
  destruct (tag_write_inv _ _ _ _ _ _ _ _ Hd Hin)
    as (url & meta & raw & Hurl & _ & Hmeta & -> & _).
  exists url, meta, raw. repeat split; try apply Hmeta; try assumption.
  apply tags_of_artist.
Qed.

Lemma tag_artist_precedence_witness :
  let E := Sample.env Sample.song (Some 0) [] true in
  let body := {| req_url := Some (js "https://v/1"); req_format := Some (js "mp3");
                 req_artist := Some [] |} in
  exists url meta raw,
    truthy_str (req_url body) = Some url /\
    metadata_of E url ∅ meta raw /\
    js "Uploader"
    = artist_precedence (req_artist body) (info_uploader meta) (info_artist meta).
Proof.
  intros E body.
  apply (tag_artist_precedence E body ∅
           {| tag_title := js "My Song!"; tag_artist := js "Uploader";
              tag_image := js "/app/temp/My_Song__u1.jpg" |}
           (js "/app/temp/My_Song__u0.mp3") true).
  vm_compute. right. right. right. left. reflexivity.
Defined.

(** ** Validation *)

Lemma truthy_false (v : field) : truthy v = false -> truthy_str v = None.
Proof. unfold truthy. now destruct (truthy_str v). Qed.

(** C9: a /download request whose url or format is missing, and an /info
    request whose url is missing, is answered with 400 and nothing else
    happens: the handler returns, no process is spawned, nothing is
    fetched, no temp path is allocated and the files are as they were. *)
Theorem missing_fields_rejected_early (E : Env) (body : Body) (files : gset (list N)) :
  (truthy (req_url body) = false \/ truthy (req_format body) = false ->
   let result := download E body (fresh files) in
   fst result = Returned /\
   wire (res (snd result)) = Some (400, [Message msg_url_or_format_missing]) /\
   trace (snd result) = [SendJson 400 (Message msg_url_or_format_missing)] /\
   uuid_calls (snd result) = 0%nat /\
   fs (snd result) = files) /\
  (truthy (req_url body) = false ->
   let result := info E body (fresh files) in
   fst result = Returned /\
   wire (res (snd result)) = Some (400, [Message msg_url_missing]) /\
   trace (snd result) = [SendJson 400 (Message msg_url_missing)] /\
   uuid_calls (snd result) = 0%nat /\
   fs (snd result) = files).
Proof.
  split.
  - intros Hmiss result. subst result. unfold download.
    destruct Hmiss as [H|H]; apply truthy_false in H; rewrite H.
    + repeat split.
    + destruct (truthy_str (req_url body)); repeat split.
  - intros H result. subst result. unfold info.
    apply truthy_false in H. rewrite H. repeat split.
Qed.

Lemma missing_fields_rejected_early_witness :
  let E := Sample.env Sample.song (Some 0) [] true in
  let body := {| req_url := Some []; req_format := None; req_artist := None |} in
  let files : gset (list N) := {[ js "/app/temp/other.mp3" ]} in
  (wire (res (snd (download E body (fresh files))))
   = Some (400, [Message msg_url_or_format_missing]) /\
   fs (snd (download E body (fresh files))) = files) /\
  (wire (res (snd (info E body (fresh files)))) = Some (400, [Message msg_url_missing]) /\
   fs (snd (info E body (fresh files))) = files).
Proof.
  intros E body files.
  destruct (missing_fields_rejected_early E body files) as [Hd Hi].
  split.
  - destruct (Hd (or_intror eq_refl)) as (_ & Hw & _ & _ & Hf). now split.
  - destruct (Hi eq_refl) as (_ & Hw & _ & _ & Hf). now split.
Defined.

(** ** Branch selection and file names *)

Lemma metadata_of_unique (E : Env) (url : jsstring) (files : gset (list N))
    (meta meta' : Info) (raw raw' : jsstring) :
  metadata_of E url files meta raw -> metadata_of E url files meta' raw' ->
  meta = meta' /\ raw = raw'.
Proof.
  intros (_ & Hp & Ht) (_ & Hp' & Ht'). rewrite Hp in Hp'.
  injection Hp' as <-. rewrite Ht in Ht'. injection Ht' as <-. now split.
Qed.

(** C10: for every /download request with a url and a format whose
    metadata resolves to a title, the extraction run is the audio one
    exactly when the format is the string 'mp3' and the video one for
    every other format; its output file is the temp directory joined with
    sanitised title, '_', token, '.' and the format of the request as it
    came; and a request that gets to stream is on the audio branch exactly
    when its format is 'mp3', every other one carrying the video/mp4
    content type and an attachment name ending in '.mp4'. *)
Theorem branch_selected_by_format (E : Env) (body : Body) (files : gset (list N))
    (url format : jsstring) (meta : Info) (raw : jsstring) :
  truthy_str (req_url body) = Some url ->
  truthy_str (req_format body) = Some format ->
  metadata_of E url files meta raw ->
  let result := download E body (fresh files) in
  let title := replace_non_alnum raw in
  let filePath :=
    path_join E (tempDir E) (title ++ js "_" ++ uuidv4 E 0 ++ js "." ++ format) in
  (exists rest,
     trace (snd result)
     = Spawn [js "--dump-json"; url]
       :: Spawn (if decide (format = js "mp3")
                 then [js "-x"; js "--audio-format"; js "mp3"; js "-o"; filePath; url]
                 else [js "-f"; js "best"; js "-o"; filePath; url])
       :: rest) /\
  forall b f t,
    fst result = Streaming b f t ->
    f = filePath /\
    (b = Audio <-> format = js "mp3") /\
    (format <> js "mp3" ->
     headers (res (snd result))
     = [(js "Content-Disposition",
         js "attachment; filename=" ++ dquote ++ title ++ js "." ++ js "mp4" ++ dquote);
        (js "Content-Type", js "video/mp4")]).
Proof.
  intros Hurl Hformat Hmeta result title filePath. subst result title filePath.
  destruct (download E body (fresh files)) as [ph s] eqn:Hd. cbn [fst snd].
  apply download_outcome_of in Hd.
  inversion Hd as [s' Hmiss Hfs Htrace Hwire Hsent
                  |url' format' s' Hurl' Hformat' Hatt Hres Hresp Hprefix
                  |url' format' meta' raw' s' Hurl' Hformat' Hmeta' b' f' tags' Hx Htrace Hres Hresp Hf];
    subst.
  - destruct Hmiss as [H|H]; congruence.
  - assert (url' = url) by congruence. assert (format' = format) by congruence.
    subst url' format'.
    split; [|discriminate].
    destruct (Hprefix meta raw Hmeta) as [rest Hrest].
    exists rest. rewrite Hrest. unfold extraction_args, primary_path, audio_args, video_args.
    now destruct (decide (format = js "mp3")).
  - assert (url' = url) by congruence. assert (format' = format) by congruence.
    subst url' format'.
    destruct (metadata_of_unique _ _ _ _ _ _ _ Hmeta' Hmeta) as [-> ->].
    split.
    + eexists. rewrite Htrace. unfold extraction_args, primary_path, audio_args, video_args.
      destruct (decide (format = js "mp3")); reflexivity.
    + intros b f t Hs. injection Hs as <- <- <-.
      split; [reflexivity|]. subst b'. rewrite Hres. cbn [headers].
      unfold branch_of.
      destruct (decide (format = js "mp3")) as [Heq|Hne].
      * split; [split; [intros _; exact Heq|reflexivity]|].
        intros Hne. elim Hne. exact Heq.
      * split; [split; [discriminate|intros Heq; elim Hne; exact Heq]|].
        intros _. reflexivity.
Qed.

Lemma branch_selected_by_format_witness :
  let E := Sample.env Sample.song (Some 0) [] true in
  let body := Sample.request (js "mp3 ") in
  exists s,
    download E body (fresh ∅)
    = (Streaming Video (js "/app/temp/My_Song__u0.mp3 ")
         (js "/app/temp/My_Song__u1.jpg"), s) /\
    headers (res s)
    = [(js "Content-Disposition",
        js "attachment; filename=" ++ dquote ++ js "My_Song_.mp4" ++ dquote);
       (js "Content-Type", js "video/mp4")].
Proof.
  intros E body.
  destruct (branch_selected_by_format E body ∅ (js "https://v/1") (js "mp3 ")
              Sample.song (js "My Song!"))
    as [_ Hstream]; [reflexivity|reflexivity|repeat split; reflexivity|].
  destruct (download E body (fresh ∅)) as [ph s] eqn:Hd.
  assert (Hph : ph = Streaming Video (js "/app/temp/My_Song__u0.mp3 ")
                       (js "/app/temp/My_Song__u1.jpg")).
  { apply (f_equal fst) in Hd. cbn [fst] in Hd. rewrite <- Hd.
    vm_compute. reflexivity. }
  exists s. split; [now rewrite Hph|].
  destruct (Hstream _ _ _ Hph) as (_ & _ & Hh).
  cbn [snd] in Hh. rewrite Hh; [reflexivity|]. vm_compute. discriminate.
Defined.

(** ** Incomplete metadata *)

(** The /info route checks the metadata it parsed: without a title or
    without a thumbnail it answers 500 with its own message. *)
Lemma info_validates_metadata (E : Env) (body : Body) (files : gset (list N))
    (url : jsstring) (meta : Info) :
  truthy_str (req_url body) = Some url ->
  let dump := yt_dlp E [js "--dump-json"; url] files in
  exit_code dump = Some 0 ->
  JSON_parse E (accumulate (out_chunks dump)) = Ok (Some meta) ->
  truthy (info_title meta) = false \/ truthy (info_thumbnail meta) = false ->
  let result := info E body (fresh files) in
  fst result = Returned /\
  wire (res (snd result))
  = Some (500, [Message (msg_info_failed ++ msg_metadata_missing)]).
Proof.
  Opaque js accumulate.
  intros Hurl dump Hdump Hparse Hmiss result. subst result dump.
  unfold info. rewrite Hurl.
  apply (wp_settle _ _ (fun ph s => ph = Returned /\ wire (res s) = _)).
  apply wp_try_catch. unfold info_try.
  apply wp_bind, wp_execYtDlp. cbv zeta. normalize.
  split; [intros _|intros Hc; now elim Hc].
  apply wp_bind, wp_lift. rewrite Hparse.
  assert (Hcond : negb (truthy (info_title meta)) || negb (truthy (info_thumbnail meta))
                  = true).
  { destruct Hmiss as [-> | ->]; cbn; [reflexivity|apply orb_true_r]. }
  rewrite Hcond. apply wp_throw. split; reflexivity.
  Transparent js accumulate.
Qed.

(** C5 (what the code does): /download never checks the parsed metadata.
    With a dump that has a title and no thumbnail, /info answers 500 with
    its metadata message while /download extracts and streams the video;
    with a dump that has no title, /download fails on [info.title.replace]
    with a TypeError, which then sends it into the [catch] clause. *)
Theorem download_skips_metadata_validation :
  let no_thumbnail :=
    {| info_title := Some (js "Song"); info_thumbnail := None;
       info_uploader := None; info_artist := None |} in
  let no_title :=
    {| info_title := None; info_thumbnail := Some (js "http://img/t.jpg");
       info_uploader := None; info_artist := None |} in
  let E := Sample.env no_thumbnail (Some 0) [] true in
  let E' := Sample.env no_title (Some 0) [] true in
  let body := Sample.request (js "mp4") in
  wire (res (snd (info E body (fresh ∅))))
  = Some (500, [Message (msg_info_failed ++ msg_metadata_missing)]) /\
  fst (download E body (fresh ∅))
  = Streaming Video (js "/app/temp/Song_u0.mp4") (js "/app/temp/Song_u1.jpg") /\
  fst (download_try E' (handler_scope E' (js "https://v/1") (js "mp4")) None (fresh ∅))
  = Throw (undefined_property (js "replace")) /\
  fst (download E' body (fresh ∅)) = Rejected filePath_is_not_defined.
Proof. vm_compute. repeat split; reflexivity. Qed.

(** * Further properties *)

(** ** The title sanitiser *)

(** X1: sanitising is idempotent, and the titles it leaves as they are are
    exactly those made of ASCII alphanumerics and underscores. *)
Theorem replace_non_alnum_fixed_points (title : jsstring) :
  replace_non_alnum (replace_non_alnum title) = replace_non_alnum title /\
  (replace_non_alnum title = title
   <-> Forall (fun c => is_alnum c = true \/ c = underscore) title).
Proof.
  assert (Hfix : forall t, Forall (fun c => is_alnum c = true \/ c = underscore) t ->
                           replace_non_alnum t = t).
  { unfold replace_non_alnum.
    induction 1 as [|c t [Hc| ->] _ IH]; cbn; [reflexivity|..].
    - now rewrite Hc, IH.
    - now rewrite IH. }
  split.
  - apply Hfix, replace_non_alnum_chars.
  - split; [|apply Hfix].
    intros <-. apply replace_non_alnum_chars.
Qed.

Lemma replace_non_alnum_fixed_points_witness :
  replace_non_alnum (js "My_Song_01") = js "My_Song_01".
Proof.
  apply (proj2 (proj2 (replace_non_alnum_fixed_points (js "My_Song_01")))).
  repeat (apply List.Forall_cons; [first [left; reflexivity|right; reflexivity]|]).
  apply List.Forall_nil.
Defined.

(** ** The process executor *)

(** X2: a rejection of the executor is a plain [Error] whose message is
    never empty: it is the child's stderr when there is any, and the fixed
    text otherwise; and whatever the outcome, exactly one process was
    spawned, with the arguments given. *)
Theorem execYtDlp_rejection_message (E : Env) (args : list jsstring) (s : State)
    (e : JsError) :
  fst (execYtDlp E args s) = Throw e ->
  kind e = PlainError /\
  message e <> [] /\
  message e = failure_detail (yt_dlp E args (fs s)) /\
  trace (snd (execYtDlp E args s)) = trace s ++ [Spawn args].
Proof.
  unfold execYtDlp, failure_detail. rewrite !accumulate_concat.
  set (proc := yt_dlp E args (fs s)).
  assert (Hmsg : js_or (Some (concat (err_chunks proc))) (js "yt-dlp failed")
                 = match concat (err_chunks proc) with
                   | [] => js "yt-dlp failed"
                   | stderr => stderr
                   end)
    by (unfold js_or; cbn; now destruct (concat (err_chunks proc))).
  rewrite Hmsg.
  destruct (exit_code proc) as [[| |]|]; cbn [fst snd]; intros H;
    try discriminate H; injection H as <-; cbn [kind message Error];
    (split; [reflexivity|]);
    (split; [destruct (concat (err_chunks proc)); [vm_compute|]; discriminate|]);
    split; reflexivity.
Qed.

Lemma execYtDlp_rejection_message_witness :
  let E := Sample.env Sample.song None [] true in
  let args := [js "-f"; js "best"; js "-o"; js "/app/temp/a.mp4"; js "https://v/1"] in
  message (Error (js "yt-dlp failed")) = failure_detail (yt_dlp E args ∅).
Proof.
  intros E args.
  apply (execYtDlp_rejection_message E args (fresh ∅) (Error (js "yt-dlp failed"))).
  reflexivity.
Defined.

(** ** [cleanup] *)

(** X3: [cleanup] never throws; afterwards every listed path that [unlink]
    can remove is gone, nothing has appeared, every other file is still
    there, and neither the response nor the [responded] flag was
    touched. *)
Theorem cleanup_removes_listed_files (E : Env) (files : list jsstring) (s : State) :
  let s' := snd (cleanup E files s) in
  fst (cleanup E files s) = Ok tt /\
  (forall p, In p files -> unlink_ok E p = true -> p ∉ fs s') /\
  (forall p, p ∈ fs s' -> p ∈ fs s) /\
  (forall p, p ∈ fs s -> ~ In p files \/ unlink_ok E p = false -> p ∈ fs s') /\
  res s' = res s /\
  responded s' = responded s.
Proof.
  intros s'. subst s'. unfold cleanup. cbn [fst snd].
  destruct (cleanup_files_frame E files (record (Cleanup files) s)) as (Hr & Hd & _).
  rewrite cleanup_files_fs, Hr, Hd. cbn [fs res responded record].
  split; [reflexivity|].
  split; [|split; [|split; [|split; reflexivity]]].
  - intros p Hin Hok Hp. apply elem_of_difference in Hp as [_ Hp].
    apply Hp, elem_of_list_to_set, list_elem_of_filter.
    split; [exact Hok|now apply list_elem_of_In].
  - intros p Hp. now apply elem_of_difference in Hp as [Hp _].
  - intros p Hp Hkeep. apply elem_of_difference. split; [exact Hp|].
    intros Hl. apply elem_of_list_to_set, list_elem_of_filter in Hl as [Hok Hin].
    destruct Hkeep as [Hnot|Hfail]; [apply Hnot; now apply list_elem_of_In|congruence].
Qed.

Lemma cleanup_removes_listed_files_witness :
  let E := Sample.env Sample.song (Some 0) [] true in
  let a := js "/app/temp/a.mp3" in
  let b := js "/app/temp/b.jpg" in
  let s := fresh ({[ a ]} ∪ {[ b ]}) in
  (a ∉ fs (snd (cleanup E [a] s))) /\ (b ∈ fs (snd (cleanup E [a] s))).
Proof.
  intros E a b s.
  destruct (cleanup_removes_listed_files E [a] s) as (_ & Hgone & _ & Hkeep & _).
  split.
  - apply Hgone; [left; reflexivity|reflexivity].
  - apply Hkeep; [vm_compute; reflexivity|].
    left. intros [Heq|[]]. vm_compute in Heq. discriminate Heq.
Defined.

(** X4: paths that do not exist are skipped in silence: when none of the
    listed files exists, [cleanup] does nothing but be called: no
    [unlink], no log entry, no error. *)
Theorem cleanup_of_missing_files (E : Env) (files : list jsstring) (s : State) :
  (forall p, In p files -> p ∉ fs s) ->
  cleanup E files s = (Ok tt, record (Cleanup files) s).
Proof.
  intros Hmissing. unfold cleanup. f_equal.
  assert (H : forall s0, (forall p, In p files -> p ∉ fs s0) ->
                         cleanup_files E files s0 = s0).
  { clear. unfold cleanup_files.
    induction files as [|file files IH]; intros s0 Hm; cbn [fold_left]; [reflexivity|].
    assert (Hfile : cleanup_file E s0 file = s0).
    { unfold cleanup_file. rewrite decide_False; [reflexivity|].
      apply Hm. now left. }
    rewrite Hfile. apply IH. intros p Hp. apply Hm. now right. }
  apply H. exact Hmissing.
Qed.

Lemma cleanup_of_missing_files_witness :
  let E := Sample.env Sample.song (Some 0) [] true in
  let paths := [js "/app/temp/a.mp3"; js "/app/temp/a.jpg"] in
  cleanup E paths (fresh ∅) = (Ok tt, record (Cleanup paths) (fresh ∅)).
Proof.
  intros E paths. apply cleanup_of_missing_files.
  intros p _. apply not_elem_of_empty.
Defined.

(** ** [POST /info] *)

Lemma wp_status_json (code : Z) (body : Payload) (s : State) Q :
  headersSent (res s) = false -> gone (res s) = false ->
  Q (Ok tt) (with_res (answered code body (res s)) (record (SendJson code body) s)) ->
  wp (status_json code body) s Q.
Proof.
  intros Hs Hg HQ. unfold wp, status_json, res_json, res_status, flush_head, put, finish.
  cbn. rewrite Hs. cbn. rewrite Hg. exact HQ.
Qed.

Lemma wp_json (body : Payload) (s : State) Q :
  headersSent (res s) = false -> gone (res s) = false ->
  Q (Ok tt)
    (with_res (answered (statusCode (res s)) body (res s))
       (record (SendJson (statusCode (res s)) body) s)) ->
  wp (json body) s Q.
Proof. intros Hs Hg HQ. exact (wp_status_json _ body s Q Hs Hg HQ). Qed.

Lemma js_or_stderr (proc : ProcRun) :
  js_or (Some (concat (err_chunks proc))) (js "yt-dlp failed") = failure_detail proc.
Proof. unfold js_or, failure_detail. cbn. now destruct (concat (err_chunks proc)). Qed.

Lemma js_or_fallback (uploader artist : field) :
  js_or uploader (js_or artist (js "Unknown Artist"))
  = artist_precedence None uploader artist.
Proof.
  unfold js_or, artist_precedence, truthy_str.
  destruct uploader as [[|? ?]|], artist as [[|? ?]|]; reflexivity.
Qed.

Lemma info_sound (E : Env) (body : Body) (files : gset (list N)) :
  fst (info E body (fresh files)) = Returned /\
  info_outcome E body files (snd (info E body (fresh files))).
Proof.
  Opaque js accumulate.
  unfold info.
  destruct (truthy_str (req_url body)) as [url|] eqn:Hurl.
  2: { split; [reflexivity|]. now apply info_no_url. }
  apply (wp_settle _ _ (fun ph s => ph = Returned /\ info_outcome E body files s)).
  apply wp_try_catch. unfold info_try, info_catch.
  apply wp_bind, wp_execYtDlp. cbv zeta. normalize. split; intros Hdump.
  2: { apply wp_bind, wp_emit. apply wp_bind, wp_status_json; [reflexivity..|].
       apply wp_ret. split; [reflexivity|].
       rewrite accumulate_concat, js_or_stderr.
       exact (info_tool_failed E body files url Hurl Hdump). }
  apply wp_bind, wp_lift.
  destruct (JSON_parse E _) as [[meta|]|e] eqn:Hparse.
  - destruct (negb (truthy (info_title meta)) || negb (truthy (info_thumbnail meta)))
      eqn:Hcheck.
    + apply wp_throw.
      apply wp_bind, wp_emit. apply wp_bind, wp_status_json; [reflexivity..|].
      apply wp_ret. split; [reflexivity|].
      refine (info_incomplete E body files url meta Hurl Hdump Hparse _).
      apply orb_true_iff in Hcheck as [H|H]; apply negb_true_iff in H; auto.
    + apply orb_false_iff in Hcheck as [Ht Hth].
      apply negb_false_iff in Ht, Hth.
      apply wp_bind, wp_json; [reflexivity..|]. normalize.
      apply wp_ret. split; [reflexivity|]. rewrite js_or_fallback.
      exact (info_complete E body files url meta Hurl Hdump Hparse Ht Hth).
  - apply wp_throw.
    apply wp_bind, wp_emit. apply wp_bind, wp_status_json; [reflexivity..|].
    apply wp_ret. split; [reflexivity|].
    exact (info_null E body files url Hurl Hdump Hparse).
  - apply wp_bind, wp_emit. apply wp_bind, wp_status_json; [reflexivity..|].
    apply wp_ret. split; [reflexivity|].
    exact (info_unparsed E body files url e Hurl Hdump Hparse).
  Transparent js accumulate.
Qed.


(** X6: when the dump closes with code 0 and parses to metadata with a
    title and a thumbnail, /info answers 200 with that title, that
    thumbnail and, as artist, the uploader when present, else the artist
    of the metadata, else 'Unknown Artist'; nothing is logged as an
    error. *)
Theorem info_success (E : Env) (body : Body) (files : gset (list N))
    (url : jsstring) (meta : Info) :
  truthy_str (req_url body) = Some url ->
  let dump := yt_dlp E [js "--dump-json"; url] files in
  exit_code dump = Some 0 ->
  JSON_parse E (accumulate (out_chunks dump)) = Ok (Some meta) ->
  truthy (info_title meta) = true ->
  truthy (info_thumbnail meta) = true ->
  let reply :=
    Metadata (info_title meta) (info_thumbnail meta)
      (artist_precedence None (info_uploader meta) (info_artist meta)) in
  wire (res (snd (info E body (fresh files)))) = Some (200, [reply]) /\
  trace (snd (info E body (fresh files)))
  = [Spawn [js "--dump-json"; url]; SendJson 200 reply].
Proof.
  intros Hurl dump Hdump Hparse Ht Hth reply. subst dump reply.
  destruct (info_sound E body files) as [_ Hout].
  inversion Hout as [Hu|url' Hu Hx|url' e Hu Hx Hp|url' Hu Hx Hp
                    |url' meta' Hu Hx Hp Hmiss|url' meta' Hu Hx Hp Ht' Hth'];
    try congruence;
    assert (url' = url) by congruence; subst url'; try congruence.
  - assert (meta' = meta) by congruence. subst meta'.
    destruct Hmiss; congruence.
  - assert (meta' = meta) by congruence. subst meta'.
    split; reflexivity.
Qed.

Lemma info_success_witness :
  let E := Sample.env Sample.song (Some 0) [] true in
  wire (res (snd (info E (Sample.request (js "mp3")) (fresh ∅))))
  = Some (200, [Metadata (Some (js "My Song!")) (Some (js "http://img/t.jpg"))
                  (js "Uploader")]).
Proof.
  intros E.
  apply (info_success E (Sample.request (js "mp3")) ∅ (js "https://v/1") Sample.song);
    reflexivity.
Defined.

(** X7: conversely, /info answers 200 only for complete metadata: a 200 on
    the wire means the url was there, the dump closed with code 0 and
    parsed to an object whose title and thumbnail are non-empty. *)
Theorem info_200_only_if_complete (E : Env) (body : Body) (files : gset (list N)) :
  wire_status (res (snd (info E body (fresh files)))) = Some 200 ->
  exists url meta,
    truthy_str (req_url body) = Some url /\
    exit_code (yt_dlp E [js "--dump-json"; url] files) = Some 0 /\
    JSON_parse E (accumulate (out_chunks (yt_dlp E [js "--dump-json"; url] files)))
    = Ok (Some meta) /\
    truthy (info_title meta) = true /\
    truthy (info_thumbnail meta) = true.
Proof.
  intros Hw.
  destruct (info_sound E body files) as [_ Hout].
  inversion Hout as [Hu Hs|url Hu Hx Hs|url e Hu Hx Hp Hs|url Hu Hx Hp Hs
                    |url meta Hu Hx Hp Hmiss Hs|url meta Hu Hx Hp Ht Hth Hs];
    rewrite <- Hs in Hw; try discriminate Hw.
  exists url, meta. auto.
Qed.

Lemma info_200_only_if_complete_witness :
  let E := Sample.env Sample.song (Some 0) [] true in
  exists url meta,
    truthy_str (req_url (Sample.request (js "mp3"))) = Some url /\
    exit_code (yt_dlp E [js "--dump-json"; url] ∅) = Some 0 /\
    JSON_parse E (accumulate (out_chunks (yt_dlp E [js "--dump-json"; url] ∅)))
    = Ok (Some meta) /\
    truthy (info_title meta) = true /\
    truthy (info_thumbnail meta) = true.
Proof.
  intros E. apply (info_200_only_if_complete E (Sample.request (js "mp3")) ∅).
  reflexivity.
Defined.

(** X8: when the tool closes with a code other than zero, /info logs the
    failure and answers 500 with the route's failure text followed by what
    the tool wrote to stderr (or by 'yt-dlp failed' when it wrote
    nothing); the output of the tool is not parsed. *)
Theorem info_tool_failure (E : Env) (body : Body) (files : gset (list N))
    (url : jsstring) :
  truthy_str (req_url body) = Some url ->
  let dump := yt_dlp E [js "--dump-json"; url] files in
  exit_code dump <> Some 0 ->
  let reply := Message (msg_info_failed ++ failure_detail dump) in
  wire (res (snd (info E body (fresh files)))) = Some (500, [reply]) /\
  trace (snd (info E body (fresh files)))
  = [Spawn [js "--dump-json"; url]; Log LError (js "Error fetching info:");
     SendJson 500 reply].
Proof.
  intros Hurl dump Hdump reply. subst dump reply.
  destruct (info_sound E body files) as [_ Hout].
  inversion Hout as [Hu|url' Hu Hx|url' e Hu Hx Hp|url' Hu Hx Hp
                    |url' meta' Hu Hx Hp Hmiss|url' meta' Hu Hx Hp Ht' Hth'];
    try congruence;
    assert (url' = url) by congruence; subst url'; try congruence.
  split; reflexivity.
Qed.

Lemma info_tool_failure_witness :
  let E := Sample.env Sample.song (Some 0) [] true in
  let E' := {| tempDir := tempDir E; path_join := path_join E;
               yt_dlp := fun _ files =>
                 {| out_chunks := []; err_chunks := [js "ERROR: "; js "no video"];
                    exit_code := Some 1; fs_after := files |};
               JSON_parse := JSON_parse E; uuidv4 := uuidv4 E;
               axios_stream := axios_stream E; NodeID3_write := NodeID3_write E;
               unlink_ok := unlink_ok E |} in
  wire (res (snd (info E' (Sample.request (js "mp3")) (fresh ∅))))
  = Some (500, [Message (msg_info_failed ++ js "ERROR: no video")]).
Proof.
  intros E E'.
  apply (info_tool_failure E' (Sample.request (js "mp3")) ∅ (js "https://v/1")).
  - reflexivity.
  - vm_compute. discriminate.
Defined.

(** X9: /info leaves the temp directory alone: it fetches nothing, writes
    no tags, deletes nothing and pipes nothing; the one process it ever
    spawns is the metadata dump of the url, and the files afterwards are
    the ones that run left. *)
Theorem info_touches_no_files (E : Env) (body : Body) (files : gset (list N)) :
  let s := snd (info E body (fresh files)) in
  List.filter is_file_effect (trace s) = [] /\
  List.filter is_spawn (trace s)
  = match truthy_str (req_url body) with
    | Some url => [Spawn [js "--dump-json"; url]]
    | None => []
    end /\
  fs s = match truthy_str (req_url body) with
         | Some url => fs_after (yt_dlp E [js "--dump-json"; url] files)
         | None => files
         end.
Proof.
  intros s. subst s.
  destruct (info_sound E body files) as [_ Hout].
  inversion Hout as [Hu|url' Hu Hx|url' e Hu Hx Hp|url' Hu Hx Hp
                    |url' meta' Hu Hx Hp Hmiss|url' meta' Hu Hx Hp Ht' Hth'];
    rewrite Hu; repeat split.
Qed.

(** ** [POST /download] before streaming *)



Ltac normalize_in H :=
  cbn [fs res responded uuid_calls trace with_fs with_res with_responded record
       fresh fresh_response app fst snd statusCode headers headersSent finished
       gone wire] in H.

(** Which temp files are there when the handler has wired up the stream. *)
Lemma streaming_files (E : Env) (body : Body) (files : gset (list N)) :
  forall b f t, fst (download E body (fresh files)) = Streaming b f t ->
    f ∈ fs (snd (download E body (fresh files))) /\
    (b = Audio -> t ∈ fs (snd (download E body (fresh files)))).
Proof.
  Opaque js accumulate replace_non_alnum attachment.
  unfold download.
  destruct (truthy_str (req_url body)) as [url|] eqn:Hurl;
    [destruct (truthy_str (req_format body)) as [format|] eqn:Hformat|];
    [|discriminate..].
  apply (wp_settle _ _ (fun ph s => forall b f t, ph = Streaming b f t ->
           f ∈ fs s /\ (b = Audio -> t ∈ fs s))).
  apply wp_try_catch. unfold download_try. do 3 wp_lookup.
  apply wp_bind, wp_execYtDlp. cbv zeta. normalize.
  split; intros Hdump; [|apply wp_download_catch; discriminate].
  apply wp_bind, wp_lift.
  destruct (JSON_parse E _) as [[meta|]|e];
    [|apply wp_throw, wp_download_catch; discriminate
     |apply wp_download_catch; discriminate].
  destruct (info_title meta) as [raw|];
    [|apply wp_throw, wp_download_catch; discriminate].
  apply wp_bind, wp_uuid. apply wp_bind, wp_uuid. normalize.
  destruct (decide (format = js "mp3")) as [->|Hfmt].
  - unfold audio_branch, try_scope. do 4 wp_lookup.
    apply wp_bind, wp_execYtDlp. cbv zeta. normalize.
    split; intros Hx; [|apply wp_download_catch; discriminate].
    apply wp_bind, wp_access;
      [intros Hin|intros _; apply wp_download_catch; discriminate].
    apply wp_bind, wp_downloadThumbnail;
      [intros; apply wp_download_catch; discriminate
      |intros; apply wp_download_catch; discriminate
      |intros _].
    apply wp_bind, wp_write_tags.
    destruct (NodeID3_write E _ _); cbn [negb].
    + apply wp_bind, wp_ret.
      apply wp_bind, wp_setHeader; [reflexivity|].
      apply wp_bind, wp_setHeader; [reflexivity|].
      apply wp_bind, wp_emit. apply wp_ret. normalize.
      intros b f t Hs. injection Hs as <- <- <-. normalize_in Hin. set_solver.
    + apply wp_bind, wp_emit.
      apply wp_bind, wp_setHeader; [reflexivity|].
      apply wp_bind, wp_setHeader; [reflexivity|].
      apply wp_bind, wp_emit. apply wp_ret. normalize.
      intros b f t Hs. injection Hs as <- <- <-. normalize_in Hin. set_solver.
  - unfold video_branch, try_scope. do 4 wp_lookup.
    apply wp_bind, wp_execYtDlp. cbv zeta. normalize.
    split; intros Hx; [|apply wp_download_catch; discriminate].
    apply wp_bind, wp_access;
      [intros Hin|intros _; apply wp_download_catch; discriminate].
    apply wp_bind, wp_setHeader; [reflexivity|].
    apply wp_bind, wp_setHeader; [reflexivity|].
    apply wp_bind, wp_emit. apply wp_ret. normalize.
    intros b f t Hs. injection Hs as <- <- <-. normalize_in Hin.
    split; [exact Hin|discriminate].
  Transparent js accumulate replace_non_alnum attachment.
Qed.

(** X11: when an audio request gets to stream, both of its temp files
    exist; the thumbnail of the metadata was fetched to the thumbnail
    path; the tags were written into the primary file with the title as
    the metadata has it (not the sanitised one), the artist of the
    precedence chain and the thumbnail path as image; and the response
    carries the audio/mpeg content type and an attachment name made of the
    sanitised title and '.mp3'. *)
Theorem audio_streaming_setup (E : Env) (body : Body) (files : gset (list N))
    (filePath thumbnailPath : jsstring) (s : State) :
  download E body (fresh files) = (Streaming Audio filePath thumbnailPath, s) ->
  filePath ∈ fs s /\
  thumbnailPath ∈ fs s /\
  exists url meta raw ok,
    truthy_str (req_url body) = Some url /\
    truthy_str (req_format body) = Some (js "mp3") /\
    metadata_of E url files meta raw /\
    headers (res s)
    = [(js "Content-Disposition", attachment (replace_non_alnum raw) (js "mp3"));
       (js "Content-Type", js "audio/mpeg")] /\
    In (Fetch (info_thumbnail meta) thumbnailPath) (trace s) /\
    In (TagWrite
          {| tag_title := raw;
             tag_artist := artist_precedence (req_artist body)
                             (info_uploader meta) (info_artist meta);
             tag_image := thumbnailPath |}
          filePath ok) (trace s).
Proof.
  intros Hd.
  pose proof (streaming_files E body files Audio filePath thumbnailPath) as Hfiles.
  rewrite Hd in Hfiles. destruct (Hfiles eq_refl) as [Hf Ht].
  split; [exact Hf|]. split; [exact (Ht eq_refl)|].
  apply download_outcome_of in Hd.
  inversion Hd as [| |url format meta raw s' Hurl Hformat Hmeta b' f' tags Hx Htrace Hres Hresp Hin Hb];
    subst.
  unfold branch_of in *.
  destruct (decide (format = js "mp3")) as [->|Hne]; [|discriminate Hb].
  exists url, meta, raw, (NodeID3_write E tags f').
  split; [exact Hurl|]. split; [exact Hformat|]. split; [exact Hmeta|].
  rewrite Hres, Htrace. cbn [headers stream_headers].
  split; [reflexivity|]. split; [cbn; auto|].
  rewrite <- (tags_of_artist E (req_artist body) meta raw).
  right. right. right. left. reflexivity.
Qed.

Lemma audio_streaming_setup_witness :
  let E := Sample.env Sample.song (Some 0) [] true in
  let s := snd (download E (Sample.request (js "mp3")) (fresh ∅)) in
  (js "/app/temp/My_Song__u0.mp3" ∈ fs s) /\
  (js "/app/temp/My_Song__u1.jpg" ∈ fs s).
Proof.
  intros E s.
  destruct (audio_streaming_setup E (Sample.request (js "mp3")) ∅
              (js "/app/temp/My_Song__u0.mp3") (js "/app/temp/My_Song__u1.jpg") s)
    as (Hf & Ht & _); [|now split].
  vm_compute. reflexivity.
Defined.

(** ** The listeners *)

(** X12: [sendError] is one-shot: whatever the state of the response, a
    second call does nothing at all and does not throw. *)
Theorem sendError_one_shot (m1 m2 : jsstring) (s : State) :
  responded (snd (sendError m1 s)) = true /\
  sendError m2 (snd (sendError m1 s)) = (Ok tt, snd (sendError m1 s)).
Proof.
  assert (H : responded (snd (sendError m1 s)) = true).
  { unfold sendError. destruct (responded s) eqn:Hr; [exact Hr|].
    unfold status_json. now destruct (res_json _ _). }
  split; [exact H|]. unfold sendError at 1. now rewrite H.
Qed.

Lemma detached_continue_fs (k : Cont) (s : State) :
  fs (detached (continue k) s) = fs s.
Proof.
  unfold detached, continue. destruct k as [m| |]; cbn.
  - unfold sendError. destruct (responded s); [reflexivity|].
    unfold status_json. now destruct (res_json _ _).
  - now destruct (negb (responded s)).
  - reflexivity.
Qed.

Lemma run_data_frame (E : Env) (b : Branch) (f t : jsstring) (chunks : list jsstring)
    (l : Live) :
  let l' := run E b f t l (map StreamData chunks) in
  suspended l' = suspended l /\
  responded (here l') = responded (here l) /\
  trace (here l') = trace (here l) /\
  fs (here l') = fs (here l).
Proof.
  unfold run. revert l.
  induction chunks as [|chunk chunks IH]; intros l; cbn [map fold_left]; [auto|].
  destruct (IH (step E b f t l (StreamData chunk))) as (H1 & H2 & H3 & H4).
  cbv zeta. rewrite H1, H2, H3, H4. now cbn.
Qed.

(** The state a request starts streaming in. *)
Lemma streaming_state (E : Env) (body : Body) (files : gset (list N))
    (b : Branch) (f t : jsstring) (s : State) :
  download E body (fresh files) = (Streaming b f t, s) ->
  responded s = false /\
  json_calls (trace s) = 0%nat /\
  (forall e, ~ In (Unhandled e) (trace s)) /\
  exists hs, res s = {| statusCode := 200; headers := hs; headersSent := false;
                        finished := false; gone := false; wire := None |}.
Proof.
  intros Hd. destruct (streaming_start _ _ _ _ _ _ _ Hd) as (_ & Hj & Hr & _).
  apply download_outcome_of in Hd.
  inversion Hd as [| |url format meta raw s' Hurl Hformat Hmeta b' f' tags Hx Htrace Hres Hresp Hin];
    subst.
  split; [exact Hr|]. split; [exact Hj|]. split; [|eauto].
  intros e. rewrite Htrace.
  destruct (branch_of format); [destruct (NodeID3_write E tags f')|]; cbn;
    intuition discriminate.
Qed.

(** X13: a stream error before any data was written reaches the client:
    once the ['error'] listener has run to its end, the response is a
    complete 500 with the message of the branch, and [responded] is set. *)
Theorem stream_error_before_data (E : Env) (body : Body) (files : gset (list N))
    (b : Branch) (filePath thumbnailPath : jsstring) (s : State) (msg : jsstring) :
  download E body (fresh files) = (Streaming b filePath thumbnailPath, s) ->
  let l := serve E body files [StreamError msg; Resume 0] in
  wire (res (here l)) = Some (500, [Message (stream_error_message b)]) /\
  finished (res (here l)) = true /\
  responded (here l) = true /\
  json_calls (trace (here l)) = 1%nat /\
  suspended l = [].
Proof.
  intros Hd l. subst l. unfold serve. rewrite Hd.
  destruct (streaming_state _ _ _ _ _ _ _ Hd) as (Hr & Hj & _ & hs & Hres).
  cbn [run fold_left step suspended await_cleanup on_state here app].
  cbn [lookup list_lookup task_files task_then delete list_delete].
  destruct (cleanup_files_frame E (temp_files b filePath thumbnailPath)
              (record (Cleanup (temp_files b filePath thumbnailPath))
                 (record (Log LError (js "Stream error:")) s)))
    as (Hres' & Hresp' & extra & Htrace' & Hextra).
  revert Hres' Hresp' Htrace'.
  generalize (cleanup_files E (temp_files b filePath thumbnailPath)
                (record (Cleanup (temp_files b filePath thumbnailPath))
                   (record (Log LError (js "Stream error:")) s))).
  intros s1. cbn [res responded trace record]. rewrite Hres, Hr.
  intros Hres1 Hresp1 Htrace1.
  unfold detached, continue, sendError. rewrite Hresp1.
  unfold status_json, res_json, res_status. cbn -[app]. rewrite Hres1. cbn -[app].
  repeat (split; [reflexivity|]). split; [|reflexivity].
  rewrite json_calls_snoc, Htrace1, !json_calls_app.
  apply deletions_no_calls in Hextra as [-> _].
  rewrite Hj. reflexivity.
Qed.

Lemma stream_error_before_data_witness :
  let E := Sample.env Sample.song (Some 0) [] true in
  let l := serve E (Sample.request (js "mp4")) ∅ [StreamError (js "EACCES"); Resume 0] in
  wire (res (here l)) = Some (500, [Message msg_video_stream_error]).
Proof.
  intros E l.
  eapply (stream_error_before_data E (Sample.request (js "mp4")) ∅ Video).
  vm_compute. reflexivity.
Defined.

(** X14: a stream error after data has gone out cannot be reported: the
    ['error'] listener sets [responded] and calls [res.json], which throws
    because the head is out, so the listener ends in an unhandled
    rejection; the client keeps the 200 and the chunks it has, and the
    response is never ended. *)
Theorem stream_error_mid_stream (E : Env) (body : Body) (files : gset (list N))
    (b : Branch) (filePath thumbnailPath : jsstring) (s : State)
    (chunks : list jsstring) (msg : jsstring) :
  download E body (fresh files) = (Streaming b filePath thumbnailPath, s) ->
  chunks <> [] ->
  let l := serve E body files (map StreamData chunks ++ [StreamError msg; Resume 0]) in
  wire (res (here l)) = Some (200, map Chunk chunks) /\
  finished (res (here l)) = false /\
  In (Unhandled ERR_HTTP_HEADERS_SENT) (trace (here l)) /\
  responded (here l) = true.
Proof.
  intros Hd Hne l. subst l. unfold serve. rewrite Hd, run_app.
  destruct (streaming_start _ _ _ _ _ _ _ Hd) as (_ & _ & Hr & Hs & _).
  destruct (run_data_streams E b filePath thumbnailPath chunks
              {| here := s; suspended := [] |} [] Hs)
    as [(Hfin & Hgone & Hcode & Hhead) Hwire].
  specialize (Hwire Hne). cbn [app] in Hwire, Hhead.
  destruct (run_data_frame E b filePath thumbnailPath chunks
              {| here := s; suspended := [] |}) as (Hsus & Hresp & _).
  cbn [here suspended] in Hsus, Hresp. rewrite Hr in Hresp.
  revert Hfin Hgone Hcode Hhead Hwire Hsus Hresp.
  generalize (run E b filePath thumbnailPath {| here := s; suspended := [] |}
                (map StreamData chunks)).
  intros l1 Hfin Hgone Hcode Hhead Hwire Hsus Hresp.
  assert (Hsent : headersSent (res (here l1)) = true).
  { destruct Hhead as [(_ & Hnone & _)|(Hsent & _)]; [congruence|exact Hsent]. }
  cbn [run fold_left step await_cleanup on_state here suspended]. rewrite Hsus.
  cbn [app lookup list_lookup task_files task_then].
  destruct (cleanup_files_frame E (temp_files b filePath thumbnailPath)
              (record (Cleanup (temp_files b filePath thumbnailPath))
                 (record (Log LError (js "Stream error:")) (here l1))))
    as (Hres' & Hresp' & _).
  revert Hres' Hresp'.
  generalize (cleanup_files E (temp_files b filePath thumbnailPath)
                (record (Cleanup (temp_files b filePath thumbnailPath))
                   (record (Log LError (js "Stream error:")) (here l1)))).
  intros s1. cbn [res responded record]. rewrite Hresp.
  intros Hres1 Hresp1.
  unfold detached, continue, sendError. rewrite Hresp1.
  unfold status_json, res_json, res_status. cbn -[app]. rewrite Hres1, Hsent.
  cbn -[app]. rewrite Hwire, Hfin.
  repeat split; try reflexivity.
  apply in_or_app. right. left. reflexivity.
Qed.

Lemma stream_error_mid_stream_witness :
  let E := Sample.env Sample.song (Some 0) [] true in
  let l := serve E (Sample.request (js "mp3")) ∅
             (map StreamData [js "ID3"] ++ [StreamError (js "EIO"); Resume 0]) in
  wire (res (here l)) = Some (200, [Chunk (js "ID3")]) /\
  finished (res (here l)) = false.
Proof.
  intros E l.
  destruct (stream_error_mid_stream E (Sample.request (js "mp3")) ∅ Audio
              (js "/app/temp/My_Song__u0.mp3") (js "/app/temp/My_Song__u1.jpg")
              (snd (download E (Sample.request (js "mp3")) (fresh ∅)))
              [js "ID3"] (js "EIO"))
    as (Hw & Hf & _); [vm_compute; reflexivity|discriminate|].
  split; [exact Hw|exact Hf].
Defined.



(** *** Files are removed *)

Lemma step_cleanup_invariant (E : Env) (b : Branch) (f t : jsstring) (l : Live) (ev : Event) :
  cleanup_invariant E (temp_files b f t) l ->
  cleanup_invariant E (temp_files b f t) (step E b f t l ev).
Proof.
  unfold cleanup_invariant, parked_on. intros (Hpark & Hle & Hgone).
  destruct ev as [chunk|msg| | |i]; cbn -[app].
  - auto.
  - rewrite Forall_app, length_app, !cleanup_calls_snoc. cbn.
    repeat split; auto; [lia|]. intros Hlt. apply Hgone. lia.
  - rewrite Forall_app, length_app, !cleanup_calls_snoc. cbn.
    repeat split; auto; [lia|]. intros Hlt. apply Hgone. lia.
  - rewrite Forall_app, length_app, !cleanup_calls_snoc. cbn.
    repeat split; auto; [lia|]. intros Hlt. apply Hgone. lia.
  - destruct (suspended l !! i) as [task|] eqn:Hi; cbn [here suspended]; [|auto].
    assert (Hfiles : task_files task = temp_files b f t).
    { rewrite Forall_forall in Hpark. apply Hpark.
      eapply list_elem_of_lookup_2, Hi. }
    assert (Hlen : length (delete i (suspended l)) = (length (suspended l) - 1)%nat)
      by (apply length_delete; eauto).
    assert (Hpos : (0 < length (suspended l))%nat)
      by (apply lookup_lt_Some in Hi; lia).
    rewrite detached_continue_frame.
    destruct (cleanup_files_frame E (task_files task) (here l))
      as (_ & _ & extra & Htr & Hx).
    rewrite Htr, cleanup_calls_app. apply deletions_no_calls in Hx as [_ ->].
    rewrite Hlen. split; [|split; [lia|]].
    + now apply Forall_delete.
    + intros _ p Hp Hok. rewrite detached_continue_fs, cleanup_files_fs.
      intros Hin. apply elem_of_difference in Hin as [_ Hin]. apply Hin.
      apply elem_of_list_to_set, list_elem_of_filter.
      split; [exact Hok|]. rewrite Hfiles. now apply list_elem_of_In.
Qed.

Lemma run_cleanup_invariant (E : Env) (b : Branch) (f t : jsstring) (evs : list Event)
    (l : Live) :
  cleanup_invariant E (temp_files b f t) l ->
  cleanup_invariant E (temp_files b f t) (run E b f t l evs).
Proof.
  unfold run. revert l.
  induction evs as [|ev evs IH]; intros l Hl; cbn [fold_left]; [exact Hl|].
  apply IH, step_cleanup_invariant, Hl.
Qed.

(** X16: the temp files do get removed: for a request that streams, as
    soon as one listener that was triggered has run to its end (fewer
    listeners are parked than terminal events have fired), every temp path
    of the request that [unlink] can remove is gone, and it stays gone
    whatever happens next. *)
Theorem temp_files_removed_once_resumed (E : Env) (body : Body)
    (files : gset (list N)) (b : Branch) (filePath thumbnailPath : jsstring)
    (s : State) (evs : list Event) :
  download E body (fresh files) = (Streaming b filePath thumbnailPath, s) ->
  let l := serve E body files evs in
  (length (suspended l) < length (List.filter is_terminal evs))%nat ->
  forall p, In p (temp_files b filePath thumbnailPath) ->
            unlink_ok E p = true -> p ∉ fs (here l).
Proof.
  intros Hd l. subst l. unfold serve. rewrite Hd.
  destruct (streaming_start _ _ _ _ _ _ _ Hd) as (Hc & _).
  set (l0 := {| here := s; suspended := [] |}).
  assert (H0 : cleanup_invariant E (temp_files b filePath thumbnailPath) l0).
  { unfold cleanup_invariant, parked_on, l0. cbn. rewrite Hc.
    split; [constructor|]. split; [lia|]. intros Hlt. lia. }
  destruct (run_cleanup_invariant E b filePath thumbnailPath evs l0 H0)
    as (_ & _ & Hgone).
  rewrite run_cleanup_calls in Hgone. cbn [here l0] in Hgone. rewrite Hc in Hgone.
  intros Hlt. apply Hgone. exact Hlt.
Qed.

Lemma temp_files_removed_once_resumed_witness :
  let E := Sample.env Sample.song (Some 0) [] true in
  let l := serve E (Sample.request (js "mp3")) ∅
             [StreamData (js "ID3"); ResClose; Resume 0] in
  (js "/app/temp/My_Song__u0.mp3" ∉ fs (here l)) /\
  (js "/app/temp/My_Song__u1.jpg" ∉ fs (here l)).
Proof.
  intros E l.
  pose proof (temp_files_removed_once_resumed E (Sample.request (js "mp3")) ∅ Audio
                (js "/app/temp/My_Song__u0.mp3") (js "/app/temp/My_Song__u1.jpg")
                (snd (download E (Sample.request (js "mp3")) (fresh ∅)))
                [StreamData (js "ID3"); ResClose; Resume 0]) as H.
  cbv zeta in H.
  assert (Hd : download E (Sample.request (js "mp3")) (fresh ∅)
               = (Streaming Audio (js "/app/temp/My_Song__u0.mp3")
                    (js "/app/temp/My_Song__u1.jpg"),
                  snd (download E (Sample.request (js "mp3")) (fresh ∅))))
    by (vm_compute; reflexivity).
  assert (Hlt : (length (suspended (serve E (Sample.request (js "mp3")) ∅
                                      [StreamData (js "ID3"); ResClose; Resume 0]))
                 < length (List.filter is_terminal
                             [StreamData (js "ID3"); ResClose; Resume 0]))%nat)
    by (vm_compute; lia).
  split; apply (H Hd Hlt); try reflexivity.
  - left. reflexivity.
  - right. left. reflexivity.
Defined.

(** *** After a normal end *)

Lemma step_settled (E : Env) (b : Branch) (f t : jsstring) (l : Live) (ev : Event) :
  settled l ->
  settled (step E b f t l ev) /\
  wire (res (here (step E b f t l ev))) = wire (res (here l)) /\
  json_calls (trace (here (step E b f t l ev))) = json_calls (trace (here l)).
Proof.
  unfold settled. intros (Hr & Hf & Hh).
  destruct ev as [chunk|msg| | |i]; cbn -[app].
  - unfold res_write. rewrite Hf. auto.
  - rewrite !json_calls_snoc. cbn. repeat split; auto; lia.
  - unfold res_end. rewrite Hf, !json_calls_snoc. cbn. repeat split; auto; lia.
  - rewrite !json_calls_snoc. cbn. repeat split; auto; lia.
  - destruct (suspended l !! i) as [task|]; cbn [here]; [|auto].
    destruct (cleanup_files_frame E (task_files task) (here l))
      as (Hres & Hresp & extra & Htr & Hx).
    apply deletions_no_calls in Hx as [Hx _].
    assert (Hj : json_calls (trace (cleanup_files E (task_files task) (here l)))
                 = json_calls (trace (here l)))
      by (rewrite Htr, json_calls_app, Hx; lia).
    rewrite <- Hres, <- Hresp, <- Hj in *. clear Hres Hresp Hj Htr Hx.
    revert Hr Hf Hh. generalize (cleanup_files E (task_files task) (here l)).
    intros s Hr Hf Hh.
    unfold detached, continue. destruct (task_then task) as [m| |]; cbn.
    + unfold sendError. rewrite Hr. cbn. auto.
    + rewrite Hr. cbn. auto.
    + auto.
Qed.

Lemma run_settled (E : Env) (b : Branch) (f t : jsstring) (evs : list Event) (l : Live) :
  settled l ->
  settled (run E b f t l evs) /\
  wire (res (here (run E b f t l evs))) = wire (res (here l)) /\
  json_calls (trace (here (run E b f t l evs))) = json_calls (trace (here l)).
Proof.
  unfold run. revert l.
  induction evs as [|ev evs IH]; intros l Hl; cbn [fold_left]; [auto|].
  destruct (step_settled E b f t l ev Hl) as (Hs & Hw & Hj).
  destruct (IH _ Hs) as (Hs' & Hw' & Hj').
  split; [exact Hs'|]. split; congruence.
Qed.

(** X17: a download that ended normally is final: once the stream has
    delivered its chunks and ended and the ['end'] listener has run, the
    client has status 200 and exactly those chunks, and nothing that
    follows (a late stream error, the close of the connection, further
    data) changes the response or causes a [res.json] call. *)
Theorem completed_response_is_final (E : Env) (body : Body) (files : gset (list N))
    (b : Branch) (filePath thumbnailPath : jsstring) (s : State)
    (chunks : list jsstring) (evs : list Event) :
  download E body (fresh files) = (Streaming b filePath thumbnailPath, s) ->
  let l := serve E body files
             (map StreamData chunks ++ [StreamEnd; Resume 0] ++ evs) in
  wire (res (here l)) = Some (200, map Chunk chunks) /\
  finished (res (here l)) = true /\
  responded (here l) = true /\
  json_calls (trace (here l)) = 0%nat.
Proof.
  intros Hd l. subst l. unfold serve. rewrite Hd, !run_app.
  destruct (streaming_start _ _ _ _ _ _ _ Hd) as (_ & Hj & Hr & Hs & _).
  destruct (run_data_streams E b filePath thumbnailPath chunks
              {| here := s; suspended := [] |} [] Hs) as [Hstream _].
  destruct (run_data_frame E b filePath thumbnailPath chunks
              {| here := s; suspended := [] |}) as (Hsus & Hresp & Htr & _).
  cbn [here suspended app] in Hsus, Hresp, Htr, Hstream.
  revert Hstream Hsus Hresp Htr.
  generalize (run E b filePath thumbnailPath {| here := s; suspended := [] |}
                (map StreamData chunks)).
  intros l1 (Hfin & Hgone & Hcode & Hhead) Hsus Hresp Htr.
  assert (Hend : settled (run E b filePath thumbnailPath l1 [StreamEnd; Resume 0]) /\
                 wire (res (here (run E b filePath thumbnailPath l1 [StreamEnd; Resume 0])))
                 = Some (200, map Chunk chunks) /\
                 json_calls (trace (here (run E b filePath thumbnailPath l1
                                            [StreamEnd; Resume 0]))) = 0%nat).
  { cbn [run fold_left step await_cleanup on_state on_res here suspended].
    rewrite Hsus. cbn [app lookup list_lookup task_files task_then].
    destruct (cleanup_files_frame E (temp_files b filePath thumbnailPath)
                (with_res
                   (res_end
                      (res (record (Cleanup (temp_files b filePath thumbnailPath))
                              (record (Log LInfo (completed_message b)) (here l1)))))
                   (record (Cleanup (temp_files b filePath thumbnailPath))
                      (record (Log LInfo (completed_message b)) (here l1)))))
      as (Hres' & Hresp' & extra & Htr' & Hx).
    apply deletions_no_calls in Hx as [Hx _].
    revert Hres' Hresp' Htr'.
    generalize (cleanup_files E (temp_files b filePath thumbnailPath)
                  (with_res
                     (res_end
                        (res (record (Cleanup (temp_files b filePath thumbnailPath))
                                (record (Log LInfo (completed_message b)) (here l1)))))
                     (record (Cleanup (temp_files b filePath thumbnailPath))
                        (record (Log LInfo (completed_message b)) (here l1))))).
    intros s1. cbn [res responded trace record with_res]. rewrite Hresp, Hr, Htr.
    intros Hres1 Hresp1 Htr1.
    unfold settled, detached, continue. cbn [here]. rewrite Hresp1. cbn.
    rewrite Hres1, Htr1, !json_calls_app, Hx, Hj.
    unfold res_end, flush_head, finish. rewrite Hfin.
    destruct Hhead as [(Hh & Hw & Hsent)|(Hh & Hw)]; rewrite Hh; cbn;
      repeat split; rewrite ?Hh, ?Hgone, ?Hcode, ?Hw, ?Hsent; reflexivity. }
  destruct Hend as (Hset & Hw & Hz).
  destruct (run_settled E b filePath thumbnailPath evs _ Hset) as ((Hr' & Hf' & _) & Hw' & Hj').
  rewrite Hw', Hj', Hw, Hz. auto.
Qed.

Lemma completed_response_is_final_witness :
  let E := Sample.env Sample.song (Some 0) [] true in
  let l := serve E (Sample.request (js "mp3")) ∅
             (map StreamData [js "ID3"; js "..."] ++ [StreamEnd; Resume 0]
              ++ [StreamError (js "EIO"); Resume 0; ResClose; Resume 0]) in
  wire (res (here l)) = Some (200, [Chunk (js "ID3"); Chunk (js "...")]) /\
  json_calls (trace (here l)) = 0%nat.
Proof.
  intros E l.
  destruct (completed_response_is_final E (Sample.request (js "mp3")) ∅ Audio
              (js "/app/temp/My_Song__u0.mp3") (js "/app/temp/My_Song__u1.jpg")
              (snd (download E (Sample.request (js "mp3")) (fresh ∅)))
              [js "ID3"; js "..."]
              [StreamError (js "EIO"); Resume 0; ResClose; Resume 0])
    as (Hw & _ & _ & Hj); [vm_compute; reflexivity|].
  split; [exact Hw|exact Hj].
Defined.

(** *** Who reports errors *)

Lemma step_quiet (E : Env) (b : Branch) (f t : jsstring) (l : Live) (ev : Event) :
  ~ is_stream_error ev -> quiet l -> quiet (step E b f t l ev).
Proof.
  unfold quiet. intros Hev (Hpark & Hj & Hu).
  destruct ev as [chunk|msg| | |i]; cbn -[app].
  - auto.
  - elim Hev. exact I.
  - rewrite !Forall_app, !json_calls_snoc, Hj. cbn.
    repeat split; auto; repeat constructor; auto.
  - rewrite !Forall_app, !json_calls_snoc, Hj. cbn.
    repeat split; auto; repeat constructor; auto.
  - destruct (suspended l !! i) as [task|] eqn:Hi; cbn [here suspended]; [|auto].
    assert (Hk : match task_then task with ThenSendError _ => False | _ => True end).
    { rewrite Forall_forall in Hpark. apply Hpark.
      eapply list_elem_of_lookup_2, Hi. }
    destruct (cleanup_files_frame E (task_files task) (here l))
      as (_ & _ & extra & Htr & Hx).
    assert (Hj' : json_calls (trace (cleanup_files E (task_files task) (here l))) = 0%nat).
    { rewrite Htr, json_calls_app, Hj.
      now apply deletions_no_calls in Hx as [-> _]. }
    assert (Hu' : Forall (fun e => ~ is_unhandled e)
                    (trace (cleanup_files E (task_files task) (here l)))).
    { rewrite Htr, Forall_app. split; [exact Hu|].
      eapply Forall_impl; [exact Hx|].
      intros [] He; try discriminate He; cbn; auto. }
    revert Hj' Hu'. generalize (cleanup_files E (task_files task) (here l)).
    intros s Hj' Hu'.
    split; [now apply Forall_delete|].
    unfold detached, continue.
    destruct (task_then task) as [m| |]; [contradiction| |]; cbn.
    + destruct (negb (responded s)); cbn; auto.
    + auto.
Qed.

(** X18: only a stream error is ever reported to the client: for a request
    that streams, as long as no stream ['error'] event occurs, whatever
    else happens (data, end of stream, close of the connection, resumed
    listeners) no [res.json] call is made and no listener throws. *)
Theorem only_stream_errors_are_reported (E : Env) (body : Body)
    (files : gset (list N)) (b : Branch) (filePath thumbnailPath : jsstring)
    (s : State) (evs : list Event) :
  download E body (fresh files) = (Streaming b filePath thumbnailPath, s) ->
  Forall (fun ev => ~ is_stream_error ev) evs ->
  let l := serve E body files evs in
  json_calls (trace (here l)) = 0%nat /\
  Forall (fun e => ~ is_unhandled e) (trace (here l)).
Proof.
  intros Hd Hevs l. subst l. unfold serve. rewrite Hd.
  destruct (streaming_state _ _ _ _ _ _ _ Hd) as (_ & Hj & Hu & _).
  assert (H0 : quiet {| here := s; suspended := [] |}).
  { unfold quiet. cbn. split; [constructor|]. split; [exact Hj|].
    apply Forall_forall. intros e He Hun. destruct e; try contradiction.
    apply list_elem_of_In in He. exact (Hu _ He). }
  revert H0. generalize {| here := s; suspended := [] |}.
  unfold run. induction Hevs as [|ev evs Hev _ IH]; intros l H0; cbn [fold_left].
  - destruct H0 as (_ & Hj0 & Hu0). now split.
  - apply IH, step_quiet; assumption.
Qed.

Lemma only_stream_errors_are_reported_witness :
  let E := Sample.env Sample.song (Some 0) [] true in
  let l := serve E (Sample.request (js "mp3")) ∅
             [StreamData (js "ID3"); ResClose; Resume 0; StreamEnd; Resume 0] in
  json_calls (trace (here l)) = 0%nat.
Proof.
  intros E l.
  eapply (only_stream_errors_are_reported E (Sample.request (js "mp3")) ∅ Audio
            (js "/app/temp/My_Song__u0.mp3") (js "/app/temp/My_Song__u1.jpg")).
  - vm_compute. reflexivity.
  - repeat (apply List.Forall_cons; [exact (fun H => H)|]). apply List.Forall_nil.
Defined.

(** ** The video branch *)

(** X19: a request for any format other than 'mp3' never fetches a
    thumbnail and never writes tags, however it ends. *)
Theorem video_request_skips_tagging (E : Env) (body : Body) (files : gset (list N))
    (format : jsstring) :
  truthy_str (req_format body) = Some format ->
  format <> js "mp3" ->
  Forall (fun e => ~ is_tagging e) (trace (snd (download E body (fresh files)))).
Proof.
  Opaque js accumulate replace_non_alnum attachment.
  intros Hformat Hne. unfold download. rewrite Hformat.
  destruct (truthy_str (req_url body)) as [url|] eqn:Hurl;
    [|repeat constructor; auto].
  apply (wp_settle _ _ (fun _ s => Forall (fun e => ~ is_tagging e) (trace s))).
  apply wp_try_catch. unfold download_try. do 3 wp_lookup.
  apply wp_bind, wp_execYtDlp. cbv zeta. normalize.
  split; intros Hdump;
    [|apply wp_download_catch; normalize; repeat constructor; auto].
  apply wp_bind, wp_lift.
  destruct (JSON_parse E _) as [[meta|]|e];
    [|apply wp_throw, wp_download_catch; normalize; repeat constructor; auto
     |apply wp_download_catch; normalize; repeat constructor; auto].
  destruct (info_title meta) as [raw|];
    [|apply wp_throw, wp_download_catch; normalize; repeat constructor; auto].
  apply wp_bind, wp_uuid. apply wp_bind, wp_uuid. normalize.
  rewrite decide_False by exact Hne.
  unfold video_branch, try_scope. do 4 wp_lookup.
  apply wp_bind, wp_execYtDlp. cbv zeta. normalize.
  split; intros Hx;
    [|apply wp_download_catch; normalize; repeat constructor; auto].
  apply wp_bind, wp_access;
    [intros Hin|intros _; apply wp_download_catch; normalize; repeat constructor; auto].
  apply wp_bind, wp_setHeader; [reflexivity|].
  apply wp_bind, wp_setHeader; [reflexivity|].
  apply wp_bind, wp_emit. apply wp_ret. normalize. repeat constructor; auto.
  Transparent js accumulate replace_non_alnum attachment.
Qed.

Lemma video_request_skips_tagging_witness :
  let E := Sample.env Sample.song (Some 0) [] true in
  Forall (fun e => ~ is_tagging e)
    (trace (snd (download E (Sample.request (js "webm")) (fresh ∅)))).
Proof.
  intros E.
  apply (video_request_skips_tagging E (Sample.request (js "webm")) ∅ (js "webm")).
  - reflexivity.
  - vm_compute. discriminate.
Defined.
